(** * cooklang-obsidian: the recipe view (src/cookView.ts)

    A shallow embedding of [CookView]: the dual-mode (source / preview)
    controller, the preview renderer with its image binding, and the
    countdown timers that the renderer spawns.

    The view is a record of the fields of the TypeScript class together
    with the part of the browser it talks to (the interval table of
    [window], the two [Howl] players, the notifications shown).  Every
    method is a function from view to view; event handlers (clicks and
    interval ticks) are steps of a transition system.

    Numbers are integers ([Z]): seconds, millisecond time stamps and
    interval handles.  Strings are byte strings. *)

From Stdlib Require Import Ascii.
From stdpp Require Import gmap strings list fin_maps pretty.

Open Scope Z_scope.

(** ** JavaScript primitives used by the view *)

Module JS.

(** [String(n)] and template interpolation of an integral number. *)
Definition String (n : Z) : string := pretty n.

(** [Math.floor(a / b)] for integral [a] and positive [b]. *)
Definition floor_div (a b : Z) : Z := a `div` b.

(** [a % b]: the remainder takes the sign of the dividend. *)
Definition rem (a b : Z) : Z := a `rem` b.

(** [Math.round(a / b)] for integral [a] and positive even [b]:
    halves go up, so it is [Math.floor(a / b + 0.5)]. *)
Definition round_div (a b : Z) : Z := (a + b `div` 2) `div` b.

Fixpoint repeat_char (n : nat) (c : ascii) : string :=
  match n with
  | O => EmptyString
  | S n' => String.String c (repeat_char n' c)
  end.

(** [s.padStart(n, c)] with a one-character filler. *)
Definition padStart (n : nat) (c : ascii) (s : string) : string :=
  repeat_char (n - String.length s) c +:+ s.

(** [s.startsWith(p)]. *)
Definition startsWith (s p : string) : bool := String.prefix p s.

(** [s.split(c)] for a one-character separator: never empty, the empty
    string splits into one empty piece. *)
Fixpoint split (c : ascii) (s : string) : list string :=
  match s with
  | EmptyString => [EmptyString]
  | String.String a s' =>
      if Ascii.eqb a c then EmptyString :: split c s'
      else match split c s' with
           | [] => [String.String a EmptyString]
           | p :: ps => String.String a p :: ps
           end
  end.

(** White space skipped by [parseInt] (the ASCII part of it). *)
Definition is_space (a : ascii) : bool :=
  let n := nat_of_ascii a in
  ((9 <=? n) && (n <=? 13) || (n =? 32))%nat.

Fixpoint trimStart (s : string) : string :=
  match s with
  | String.String a s' => if is_space a then trimStart s' else s
  | EmptyString => s
  end.

(** The value of a digit in radix up to 36. *)
Definition digit_val (a : ascii) : option Z :=
  let n := Z.of_nat (nat_of_ascii a) in
  if (48 <=? n) && (n <=? 57) then Some (n - 48)
  else if (97 <=? n) && (n <=? 122) then Some (n - 87)
  else if (65 <=? n) && (n <=? 90) then Some (n - 55)
  else None.

(** The longest prefix of digits of the radix, read left to right;
    [None] when there is no digit at all. *)
Fixpoint digits (radix : Z) (acc : option Z) (s : string) : option Z :=
  match s with
  | EmptyString => acc
  | String.String a s' =>
      match digit_val a with
      | Some d =>
          if d <? radix then digits radix (Some (default 0 acc * radix + d)) s'
          else acc
      | None => acc
      end
  end.

(** [parseInt(s)] without a radix: leading white space, an optional
    sign, an optional [0x] / [0X] prefix selecting radix 16, then the
    longest run of digits.  [None] stands for [NaN]. *)
Definition parseInt (s : string) : option Z :=
  let s := trimStart s in
  let '(sign, s) :=
    match s with
    | String.String "-" s' => (-1, s')
    | String.String "+" s' => (1, s')
    | _ => (1, s)
    end in
  let '(radix, s) :=
    match s with
    | String.String "0" (String.String "x" s')
    | String.String "0" (String.String "X" s') => (16, s')
    | _ => (10, s)
    end in
  (λ n, sign * n) <$> digits radix None s.

End JS.

(** ** The two duration formatters *)

(** [formatTime(time, showSeconds = false)], the coarse format of the
    summary header and of the timer buttons. *)
Definition formatTime (time : Z) (showSeconds : bool) : string :=
  let hours := JS.floor_div time 3600 in
  let minutes := JS.floor_div (JS.rem time 3600) 60 in
  let seconds := JS.rem time 60 in
  if 0 <? hours then
    JS.String hours +:+ "h " +:+ JS.String minutes +:+ "m"
      +:+ (if showSeconds then " " +:+ JS.String seconds +:+ "s" else "")
  else if 0 <? minutes then
    JS.String minutes +:+ "m"
      +:+ (if showSeconds then " " +:+ JS.String seconds +:+ "s" else "")
  else
    JS.String seconds +:+ "s".

(** [formatTimeForTimer(time)], the format of the live countdown. *)
Definition formatTimeForTimer (time : Z) : string :=
  let hours := JS.floor_div time 3600 in
  let minutes := JS.floor_div (JS.rem time 3600) 60 in
  let seconds := JS.rem time 60 in
  if 0 <? hours then
    JS.String hours +:+ ":" +:+ JS.padStart 2 "0" (JS.String minutes)
      +:+ ":" +:+ JS.padStart 2 "0" (JS.String seconds)
  else
    JS.String minutes +:+ ":" +:+ JS.padStart 2 "0" (JS.String seconds).

(** ** Data model *)

(** *** Settings and files (the host's side) *)

Inductive ViewMode := source | preview.

#[global] Instance ViewMode_eq_dec : EqDecision ViewMode.
Proof. solve_decision. Defined.

Record CooklangSettings := {
  showImages : bool;
  showIngredientList : bool;
  showCookwareList : bool;
  showTimersList : bool;
  showTotalTime : bool
}.

(** A [TFile] of the vault: [name] is the file name with its extension,
    [basename] the name without it. *)
Module TFile.
Record t := { name : string; basename : string; extension : string }.

(** The file [<basename>.<extension>]. *)
Definition make (base ext : string) : t :=
  {| name := base +:+ "." +:+ ext; basename := base; extension := ext |}.
End TFile.

(** The children of a folder: files and folders. *)
Inductive TAbstractFile :=
| AFile (f : TFile.t)
| AFolder (name : string).

(** *** The recipe model (classes of the cooklang library) *)

Module Ingredient.
Record t := { name : option string; amount : option Z; units : option string }.
End Ingredient.

Module Cookware.
Record t := { name : option string; amount : option Z }.
End Cookware.

Module Timer.
Record t := { name : option string; amount : option Z; units : option string }.
End Timer.

(** A part of a step: [typeof part === 'string'], or an instance of one
    of the three classes, or any other object. *)
Inductive Part :=
| PString (s : string)
| PIngredient (i : Ingredient.t)
| PCookware (c : Cookware.t)
| PTimer (t : Timer.t)
| POther.

Module Step.
Record t := {
  text : option (list Part);
  line : option (list Part);
  image : option TFile.t
}.

Definition set_image (f : TFile.t) (s : t) : t :=
  {| text := text s; line := line s; image := Some f |}.
End Step.

Module Recipe.
Record t := {
  ingredients : list Ingredient.t;
  cookware : list Cookware.t;
  timers : list Timer.t;
  steps : list Step.t;
  image : option TFile.t
}.

Definition set_image (f : TFile.t) (r : t) : t :=
  {| ingredients := ingredients r; cookware := cookware r;
     timers := timers r; steps := steps r; image := Some f |}.

Definition set_steps (ss : list Step.t) (r : t) : t :=
  {| ingredients := ingredients r; cookware := cookware r;
     timers := timers r; steps := ss; image := image r |}.

(** Modelled from the spec: [calculateTotalTime] is a method of the
    cooklang library's [Recipe], which is not part of this repository's
    source.  The spec gives it as the sum of all top-level timer
    amounts in the aggregate list, a single number of seconds. *)
Definition calculateTotalTime (r : t) : Z :=
  foldr (λ tm acc, default 0 (Timer.amount tm) + acc) 0 (timers r).
End Recipe.

(** *** The render tree *)

(** The children of [previewEl].  [El tag cls children] is an element
    made by [createEl] / [createDiv]; a text option of [createEl] is its
    single [Text] child.  [TimerSpan w] is the [span.timer] holding the
    button bound to timer [w]: its ['running'] class and the text inside
    the button change under the timer, so they are read from the timer's
    record. *)
#[warnings="-register-all"]
Inductive Node :=
| Text (s : string)
| El (tag : string) (cls : list string) (children : list Node)
| Img (cls : string) (src : TFile.t)
| TimerSpan (w : nat).

(** *** Timers *)

(** What [makeTimer] closes over: the arguments [seconds] and [name], the
    variables [end] and [interval], and, of the element [el], what the
    handlers read and write: whether [el.parentElement] carries the class
    ['running'], and the text of [el.querySelector('.amount')] and of the
    name span, when the button has them. *)
Record TimerWidget := {
  seconds : Z;
  name : string;
  end_ : option Z;
  interval : option nat;
  running : bool;
  amountEl : option string;
  nameEl : option string
}.

Definition set_timer_state (e : option Z) (i : option nat) (r : bool)
    (w : TimerWidget) : TimerWidget :=
  {| seconds := seconds w; name := name w; end_ := e; interval := i;
     running := r; amountEl := amountEl w; nameEl := nameEl w |}.

Definition set_amountEl (t : string) (w : TimerWidget) : TimerWidget :=
  {| seconds := seconds w; name := name w; end_ := end_ w;
     interval := interval w; running := running w;
     amountEl := Some t; nameEl := nameEl w |}.

(** A [Howl] player: the number of its sounds that are playing. *)
Record Howl := { playing : nat }.

Definition Howl_play (h : Howl) : Howl := {| playing := S (playing h) |}.
Definition Howl_stop (h : Howl) : Howl := {| playing := O |}.

Record Notification := { title : string; body : string }.

(** *** The view

    The fields of [CookView], and next to them the state of the host that
    the view reads or writes:
    - [file], [siblings]: [this.file] and [this.file.parent.children]
      (empty when there is no parent);
    - [previewEl]: the children of the preview container;
      [previewDisplay], [sourceDisplay]: the [display] style of the two
      containers; [changeModeIcon], [changeModeLabel]: the icon and the
      aria-label of [changeModeButton];
    - [doc]: [editorView.state.doc]; [measures]: the number of
      [requestMeasure] calls;
    - [widgets]: every timer made so far, by creation order (a timer
      outlives the removal of its button from the preview);
    - [intervals]: the live intervals of [window], from handle to the
      timer whose callback it runs; [nextInterval]: the next handle;
    - [notifications]: the notifications shown so far. *)
Record View := {
  settings : CooklangSettings;
  file : option TFile.t;
  siblings : list TAbstractFile;
  previewEl : list Node;
  previewDisplay : string;
  sourceDisplay : string;
  doc : string;
  measures : nat;
  recipe : option Recipe.t;
  changeModeIcon : string;
  changeModeLabel : string;
  currentView : ViewMode;
  alarmAudio : Howl;
  timerAudio : Howl;
  data : string;
  widgets : list TimerWidget;
  intervals : gmap nat nat;
  nextInterval : nat;
  notifications : list Notification
}.

Definition set_previewEl (x : list Node) (v : View) : View :=
  {| settings := settings v; file := file v; siblings := siblings v;
     previewEl := x; previewDisplay := previewDisplay v; sourceDisplay :=
     sourceDisplay v; doc := doc v; measures := measures v; recipe :=
     recipe v; changeModeIcon := changeModeIcon v; changeModeLabel :=
     changeModeLabel v; currentView := currentView v; alarmAudio :=
     alarmAudio v; timerAudio := timerAudio v; data := data v; widgets :=
     widgets v; intervals := intervals v; nextInterval := nextInterval v;
     notifications := notifications v |}.

Definition set_previewDisplay (x : string) (v : View) : View :=
  {| settings := settings v; file := file v; siblings := siblings v;
     previewEl := previewEl v; previewDisplay := x; sourceDisplay :=
     sourceDisplay v; doc := doc v; measures := measures v; recipe :=
     recipe v; changeModeIcon := changeModeIcon v; changeModeLabel :=
     changeModeLabel v; currentView := currentView v; alarmAudio :=
     alarmAudio v; timerAudio := timerAudio v; data := data v; widgets :=
     widgets v; intervals := intervals v; nextInterval := nextInterval v;
     notifications := notifications v |}.

Definition set_sourceDisplay (x : string) (v : View) : View :=
  {| settings := settings v; file := file v; siblings := siblings v;
     previewEl := previewEl v; previewDisplay := previewDisplay v;
     sourceDisplay := x; doc := doc v; measures := measures v; recipe :=
     recipe v; changeModeIcon := changeModeIcon v; changeModeLabel :=
     changeModeLabel v; currentView := currentView v; alarmAudio :=
     alarmAudio v; timerAudio := timerAudio v; data := data v; widgets :=
     widgets v; intervals := intervals v; nextInterval := nextInterval v;
     notifications := notifications v |}.

Definition set_doc (x : string) (v : View) : View :=
  {| settings := settings v; file := file v; siblings := siblings v;
     previewEl := previewEl v; previewDisplay := previewDisplay v;
     sourceDisplay := sourceDisplay v; doc := x; measures := measures v;
     recipe := recipe v; changeModeIcon := changeModeIcon v;
     changeModeLabel := changeModeLabel v; currentView := currentView v;
     alarmAudio := alarmAudio v; timerAudio := timerAudio v; data := data
     v; widgets := widgets v; intervals := intervals v; nextInterval :=
     nextInterval v; notifications := notifications v |}.

Definition set_measures (x : nat) (v : View) : View :=
  {| settings := settings v; file := file v; siblings := siblings v;
     previewEl := previewEl v; previewDisplay := previewDisplay v;
     sourceDisplay := sourceDisplay v; doc := doc v; measures := x; recipe
     := recipe v; changeModeIcon := changeModeIcon v; changeModeLabel :=
     changeModeLabel v; currentView := currentView v; alarmAudio :=
     alarmAudio v; timerAudio := timerAudio v; data := data v; widgets :=
     widgets v; intervals := intervals v; nextInterval := nextInterval v;
     notifications := notifications v |}.

Definition set_recipe (x : option Recipe.t) (v : View) : View :=
  {| settings := settings v; file := file v; siblings := siblings v;
     previewEl := previewEl v; previewDisplay := previewDisplay v;
     sourceDisplay := sourceDisplay v; doc := doc v; measures := measures
     v; recipe := x; changeModeIcon := changeModeIcon v; changeModeLabel
     := changeModeLabel v; currentView := currentView v; alarmAudio :=
     alarmAudio v; timerAudio := timerAudio v; data := data v; widgets :=
     widgets v; intervals := intervals v; nextInterval := nextInterval v;
     notifications := notifications v |}.

Definition set_changeModeIcon (x : string) (v : View) : View :=
  {| settings := settings v; file := file v; siblings := siblings v;
     previewEl := previewEl v; previewDisplay := previewDisplay v;
     sourceDisplay := sourceDisplay v; doc := doc v; measures := measures
     v; recipe := recipe v; changeModeIcon := x; changeModeLabel :=
     changeModeLabel v; currentView := currentView v; alarmAudio :=
     alarmAudio v; timerAudio := timerAudio v; data := data v; widgets :=
     widgets v; intervals := intervals v; nextInterval := nextInterval v;
     notifications := notifications v |}.

Definition set_changeModeLabel (x : string) (v : View) : View :=
  {| settings := settings v; file := file v; siblings := siblings v;
     previewEl := previewEl v; previewDisplay := previewDisplay v;
     sourceDisplay := sourceDisplay v; doc := doc v; measures := measures
     v; recipe := recipe v; changeModeIcon := changeModeIcon v;
     changeModeLabel := x; currentView := currentView v; alarmAudio :=
     alarmAudio v; timerAudio := timerAudio v; data := data v; widgets :=
     widgets v; intervals := intervals v; nextInterval := nextInterval v;
     notifications := notifications v |}.

Definition set_currentView (x : ViewMode) (v : View) : View :=
  {| settings := settings v; file := file v; siblings := siblings v;
     previewEl := previewEl v; previewDisplay := previewDisplay v;
     sourceDisplay := sourceDisplay v; doc := doc v; measures := measures
     v; recipe := recipe v; changeModeIcon := changeModeIcon v;
     changeModeLabel := changeModeLabel v; currentView := x; alarmAudio :=
     alarmAudio v; timerAudio := timerAudio v; data := data v; widgets :=
     widgets v; intervals := intervals v; nextInterval := nextInterval v;
     notifications := notifications v |}.

Definition set_alarmAudio (x : Howl) (v : View) : View :=
  {| settings := settings v; file := file v; siblings := siblings v;
     previewEl := previewEl v; previewDisplay := previewDisplay v;
     sourceDisplay := sourceDisplay v; doc := doc v; measures := measures
     v; recipe := recipe v; changeModeIcon := changeModeIcon v;
     changeModeLabel := changeModeLabel v; currentView := currentView v;
     alarmAudio := x; timerAudio := timerAudio v; data := data v; widgets
     := widgets v; intervals := intervals v; nextInterval := nextInterval
     v; notifications := notifications v |}.

Definition set_timerAudio (x : Howl) (v : View) : View :=
  {| settings := settings v; file := file v; siblings := siblings v;
     previewEl := previewEl v; previewDisplay := previewDisplay v;
     sourceDisplay := sourceDisplay v; doc := doc v; measures := measures
     v; recipe := recipe v; changeModeIcon := changeModeIcon v;
     changeModeLabel := changeModeLabel v; currentView := currentView v;
     alarmAudio := alarmAudio v; timerAudio := x; data := data v; widgets
     := widgets v; intervals := intervals v; nextInterval := nextInterval
     v; notifications := notifications v |}.

Definition set_data (x : string) (v : View) : View :=
  {| settings := settings v; file := file v; siblings := siblings v;
     previewEl := previewEl v; previewDisplay := previewDisplay v;
     sourceDisplay := sourceDisplay v; doc := doc v; measures := measures
     v; recipe := recipe v; changeModeIcon := changeModeIcon v;
     changeModeLabel := changeModeLabel v; currentView := currentView v;
     alarmAudio := alarmAudio v; timerAudio := timerAudio v; data := x;
     widgets := widgets v; intervals := intervals v; nextInterval :=
     nextInterval v; notifications := notifications v |}.

Definition set_widgets (x : list TimerWidget) (v : View) : View :=
  {| settings := settings v; file := file v; siblings := siblings v;
     previewEl := previewEl v; previewDisplay := previewDisplay v;
     sourceDisplay := sourceDisplay v; doc := doc v; measures := measures
     v; recipe := recipe v; changeModeIcon := changeModeIcon v;
     changeModeLabel := changeModeLabel v; currentView := currentView v;
     alarmAudio := alarmAudio v; timerAudio := timerAudio v; data := data
     v; widgets := x; intervals := intervals v; nextInterval :=
     nextInterval v; notifications := notifications v |}.

Definition set_intervals (x : gmap nat nat) (v : View) : View :=
  {| settings := settings v; file := file v; siblings := siblings v;
     previewEl := previewEl v; previewDisplay := previewDisplay v;
     sourceDisplay := sourceDisplay v; doc := doc v; measures := measures
     v; recipe := recipe v; changeModeIcon := changeModeIcon v;
     changeModeLabel := changeModeLabel v; currentView := currentView v;
     alarmAudio := alarmAudio v; timerAudio := timerAudio v; data := data
     v; widgets := widgets v; intervals := x; nextInterval := nextInterval
     v; notifications := notifications v |}.

Definition set_nextInterval (x : nat) (v : View) : View :=
  {| settings := settings v; file := file v; siblings := siblings v;
     previewEl := previewEl v; previewDisplay := previewDisplay v;
     sourceDisplay := sourceDisplay v; doc := doc v; measures := measures
     v; recipe := recipe v; changeModeIcon := changeModeIcon v;
     changeModeLabel := changeModeLabel v; currentView := currentView v;
     alarmAudio := alarmAudio v; timerAudio := timerAudio v; data := data
     v; widgets := widgets v; intervals := intervals v; nextInterval := x;
     notifications := notifications v |}.

Definition set_notifications (x : list Notification) (v : View) : View :=
  {| settings := settings v; file := file v; siblings := siblings v;
     previewEl := previewEl v; previewDisplay := previewDisplay v;
     sourceDisplay := sourceDisplay v; doc := doc v; measures := measures
     v; recipe := recipe v; changeModeIcon := changeModeIcon v;
     changeModeLabel := changeModeLabel v; currentView := currentView v;
     alarmAudio := alarmAudio v; timerAudio := timerAudio v; data := data
     v; widgets := widgets v; intervals := intervals v; nextInterval :=
     nextInterval v; notifications := x |}.

Definition set_file (x : option TFile.t) (v : View) : View :=
  {| settings := settings v; file := x; siblings := siblings v; previewEl
     := previewEl v; previewDisplay := previewDisplay v; sourceDisplay :=
     sourceDisplay v; doc := doc v; measures := measures v; recipe :=
     recipe v; changeModeIcon := changeModeIcon v; changeModeLabel :=
     changeModeLabel v; currentView := currentView v; alarmAudio :=
     alarmAudio v; timerAudio := timerAudio v; data := data v; widgets :=
     widgets v; intervals := intervals v; nextInterval := nextInterval v;
     notifications := notifications v |}.

Definition set_siblings (x : list TAbstractFile) (v : View) : View :=
  {| settings := settings v; file := file v; siblings := x; previewEl :=
     previewEl v; previewDisplay := previewDisplay v; sourceDisplay :=
     sourceDisplay v; doc := doc v; measures := measures v; recipe :=
     recipe v; changeModeIcon := changeModeIcon v; changeModeLabel :=
     changeModeLabel v; currentView := currentView v; alarmAudio :=
     alarmAudio v; timerAudio := timerAudio v; data := data v; widgets :=
     widgets v; intervals := intervals v; nextInterval := nextInterval v;
     notifications := notifications v |}.

(** ** Image binding (the first part of [renderPreview]) *)

(** [otherFiles]: the siblings that are files, whose base name is the
    document's or starts with the document's followed by a dot, the
    document itself excluded. *)
Definition otherFiles (file : option TFile.t) (siblings : list TAbstractFile)
    : list TFile.t :=
  match file with
  | None => []
  | Some me =>
      omap (λ f,
        match f with
        | AFile f =>
            if (String.eqb (TFile.basename f) (TFile.basename me)
                || JS.startsWith (TFile.basename f) (TFile.basename me +:+ "."))
               && negb (String.eqb (TFile.name f) (TFile.name me))
            then Some f else None
        | AFolder _ => None
        end) siblings
  end.

(** The accepted kinds of image. *)
Definition isImageExtension (ext : string) : bool :=
  String.eqb ext "jpg" || String.eqb ext "jpeg"
  || String.eqb ext "png" || String.eqb ext "gif".

(** The step that a sibling [f] illustrates, as the body of the
    [forEach] decides it: the base name splits on dots in exactly two
    pieces and [parseInt] of the second is a number [s] with
    [0 <= s < steps.length]. *)
Definition stepIndex (f : TFile.t) (stepCount : nat) : option nat :=
  let split := JS.split "." (TFile.basename f) in
  if bool_decide (length split = 2%nat) then
    match JS.parseInt (default "" (split !! 1%nat)) with
    | Some s =>
        if (0 <=? s) && (s <? Z.of_nat stepCount) then Some (Z.to_nat s)
        else None
    | None => None
    end
  else None.

(** The body of [otherFiles.forEach]: one sibling is bound, or not. *)
Definition bindFile (me : TFile.t) (recipe : Recipe.t) (f : TFile.t) : Recipe.t :=
  if isImageExtension (TFile.extension f) then
    if String.eqb (TFile.basename f) (TFile.basename me) then
      Recipe.set_image f recipe
    else
      match stepIndex f (length (Recipe.steps recipe)) with
      | Some s =>
          Recipe.set_steps (alter (Step.set_image f) s (Recipe.steps recipe)) recipe
      | None => recipe
      end
  else recipe.

(** The whole binding pass, in the order of the siblings. *)
Definition bindImages (file : option TFile.t) (siblings : list TAbstractFile)
    (recipe : Recipe.t) : Recipe.t :=
  match file with
  | None => recipe
  | Some me => foldl (bindFile me) recipe (otherFiles file siblings)
  end.

(** ** Rendering *)

(** [createEl(tag, { cls, text })]. *)
Definition createEl (tag cls text : string) : Node := El tag [cls] [Text text].

(** An optional fragment followed by a space, as in the three lists. *)
Definition fragment (cls : string) (x : option string) : list Node :=
  match x with
  | Some t => [createEl "span" cls t; Text " "]
  | None => []
  end.

Definition renderIngredient (i : Ingredient.t) : Node :=
  El "li" []
    (fragment "amount" (JS.String <$> Ingredient.amount i)
     ++ fragment "unit" (Ingredient.units i)
     ++ [Text (default "" (Ingredient.name i))]).

Definition renderCookware (c : Cookware.t) : Node :=
  El "li" []
    (fragment "amount" (JS.String <$> Cookware.amount c)
     ++ [Text (default "" (Cookware.name c))]).

Definition renderTimer (t : Timer.t) : Node :=
  El "li" []
    (fragment "amount" (JS.String <$> Timer.amount t)
     ++ fragment "unit" (Timer.units t)
     ++ [Text (default "" (Timer.name t))]).

(** [makeTimer(el, seconds, name)]: a new timer, idle, bound to the
    button [el]; the result is its index among the timers. *)
Definition makeTimer (amountEl nameEl : option string) (seconds : Z)
    (name : string) (ws : list TimerWidget) : nat * list TimerWidget :=
  (length ws,
   ws ++ [{| seconds := seconds; name := name; end_ := None; interval := None;
             running := false; amountEl := amountEl; nameEl := nameEl |}]).

(** A truthy string: defined and not empty. *)
Definition truthy (s : option string) : option string :=
  match s with
  | Some "" => None
  | _ => s
  end.

(** One part of a step, appended to the step's text. *)
Definition renderPart (part : Part) (ws : list TimerWidget)
    : Node * list TimerWidget :=
  match part with
  | PString s => (Text s, ws)
  | PIngredient i =>
      (El "span" ["ingredient"]
         (Text (default "" (Ingredient.name i))
          :: match Ingredient.amount i with
             | Some a =>
                 [Text " ("; createEl "span" "amount" (JS.String a)]
                 ++ match Ingredient.units i with
                    | Some u => [Text " "; createEl "span" "unit" u]
                    | None => []
                    end
                 ++ [Text ")"]
             | None => []
             end), ws)
  | PCookware c =>
      (El "span" ["cookware"]
         (Text (default "" (Cookware.name c))
          :: match Cookware.amount c with
             | Some a => [Text " ("; createEl "span" "amount" (JS.String a); Text ")"]
             | None => []
             end), ws)
  | PTimer t =>
      let amountEl := (λ a, formatTime a false) <$> Timer.amount t in
      let nameEl := truthy (Timer.name t) in
      let '(w, ws) :=
        makeTimer amountEl nameEl (default 0 (Timer.amount t))
          (default "" (Timer.name t)) ws in
      (TimerSpan w, ws)
  | POther => (El "span" [] [], ws)
  end.

Fixpoint renderParts (parts : list Part) (ws : list TimerWidget)
    : list Node * list TimerWidget :=
  match parts with
  | [] => ([], ws)
  | part :: parts =>
      let '(n, ws) := renderPart part ws in
      let '(ns, ws) := renderParts parts ws in
      (n :: ns, ws)
  end.

(** [(step as any).text || step.line || []]. *)
Definition stepText (step : Step.t) : list Part :=
  match Step.text step with
  | Some parts => parts
  | None => default [] (Step.line step)
  end.

(** One item of the method list. *)
Definition renderStep (showImages : bool) (step : Step.t)
    (ws : list TimerWidget) : Node * list TimerWidget :=
  let img :=
    match Step.image step with
    | Some f => if showImages then [Img "step-image" f] else []
    | None => []
    end in
  let '(ns, ws) := renderParts (stepText step) ws in
  (El "li" [] (img ++ [El "div" ["step-text"] ns]), ws).

Fixpoint renderSteps (showImages : bool) (steps : list Step.t)
    (ws : list TimerWidget) : list Node * list TimerWidget :=
  match steps with
  | [] => ([], ws)
  | step :: steps =>
      let '(n, ws) := renderStep showImages step ws in
      let '(ns, ws) := renderSteps showImages steps ws in
      (n :: ns, ws)
  end.

(** [renderPreview(recipe)].  Every caller passes [this.recipe], and the
    image binding writes into that object: the bound recipe is stored
    back in the view.  Emptying the preview removes its children; it
    touches neither the timers made for them nor their intervals. *)
Definition renderPreview (recipe : option Recipe.t) (v : View) : View :=
  let v := set_previewEl [] v in
  match recipe with
  | None => v
  | Some recipe =>
      let st := settings v in
      let recipe :=
        if showImages st then bindImages (file v) (siblings v) recipe
        else recipe in
      let mainImage :=
        if showImages st then
          match Recipe.image recipe with
          | Some f => [Img "main-image" f]
          | None => []
          end
        else [] in
      let ingredients :=
        if showIngredientList st then
          [createEl "h2" "ingredients-header" "Ingredients";
           El "ul" ["ingredients"] (renderIngredient <$> Recipe.ingredients recipe)]
        else [] in
      let cookware :=
        if showCookwareList st then
          [createEl "h2" "cookware-header" "Cookware";
           El "ul" ["cookware"] (renderCookware <$> Recipe.cookware recipe)]
        else [] in
      let timers :=
        if showTimersList st then
          [createEl "h2" "timer-header" "Timers";
           El "ul" ["timers"] (renderTimer <$> Recipe.timers recipe)]
        else [] in
      let totalTime :=
        if showTotalTime st then
          let time := Recipe.calculateTotalTime recipe in
          if 0 <? time then
            [createEl "h2" "time-header" "Total Time";
             createEl "p" "time" (formatTime time false)]
          else []
        else [] in
      let '(items, ws) :=
        renderSteps (showImages st) (Recipe.steps recipe) (widgets v) in
      set_previewEl
        (mainImage ++ ingredients ++ cookware ++ timers ++ totalTime
         ++ [createEl "h2" "method-header" "Method"; El "ol" ["method"] items])
        (set_widgets ws (set_recipe (Some recipe) v))
  end.

(** ** Timers: the handlers made by [makeTimer], and [updateTimer] *)

(** The closure [stop] of timer [w]: clear the interval if there is one,
    take the class ['running'] off the button's parent, stop the tick
    sound, forget the deadline.  (The button is made by [span.createEl],
    so [el.parentElement] is that span, also after the preview has been
    emptied: [empty()] detaches the children of [previewEl] only.) *)
Definition stop (w : nat) (v : View) : View :=
  match widgets v !! w with
  | None => v
  | Some tw =>
      let v :=
        match interval tw with
        | Some h => set_intervals (delete h (intervals v)) v
        | None => v
        end in
      let v := set_widgets (<[w := set_timer_state None None false tw]> (widgets v)) v in
      set_timerAudio (Howl_stop (timerAudio v)) v
  end.

(** The click listener of timer [w], run at time [now] (milliseconds). *)
Definition click (w : nat) (now : Z) (v : View) : View :=
  match widgets v !! w with
  | None => v
  | Some tw =>
      match end_ tw with
      | None =>
          let h := nextInterval v in
          set_nextInterval (S h)
            (set_intervals (<[h := w]> (intervals v))
               (set_widgets
                  (<[w := set_timer_state (Some (now + seconds tw * 1000)) (Some h) true tw]>
                     (widgets v)) v))
      | Some _ => stop w v
      end
  end.

(** [new Notification(title, { body })]. *)
Definition notify (title body : string) (v : View) : View :=
  set_notifications (notifications v ++ [{| title := title; body := body |}]) v.

(** [updateTimer(el, totalSeconds, end, stop, name)] run at time [now];
    [w] stands for the button [el] and for its [stop]. *)
Definition updateTimer (w : nat) (totalSeconds : Z) (end_ : Z) (name : string)
    (now : Z) (v : View) : View :=
  let remaining := JS.round_div (end_ - now) 1000 in
  if remaining <=? 0 then
    let v := stop w v in
    let v := set_alarmAudio (Howl_play (alarmAudio v)) v in
    notify "Timer Complete"
      ((if String.eqb name "" then "Timer" else name) +:+ " for "
       +:+ formatTimeForTimer totalSeconds +:+ " is done!") v
  else
    let text := formatTimeForTimer remaining in
    set_widgets
      (alter (λ tw, match amountEl tw with
                    | Some _ => set_amountEl text tw
                    | None => tw
                    end) w (widgets v)) v.

(** The callback of the live interval [h], run at time [now]: it calls
    [updateTimer] with the current deadline of its timer.  A handle that
    is not live has no callback to run.  With a null deadline
    [end.getTime()] throws and the callback changes nothing. *)
Definition tick (h : nat) (now : Z) (v : View) : View :=
  match intervals v !! h with
  | None => v
  | Some w =>
      match widgets v !! w with
      | None => v
      | Some tw =>
          match end_ tw with
          | Some e => updateTimer w (seconds tw) e (name tw) now v
          | None => v
          end
      end
  end.

(** ** The mode controller *)

(** The argument of [switchMode]: nothing, a mode, or a mouse event
    ([Keymap.isModEvent] tells whether a modifier key was held). *)
Inductive SwitchArg :=
| ArgNone
| ArgMode (mode : ViewMode)
| ArgMouse (isModEvent : bool).

Definition toggled (v : View) : ViewMode :=
  match currentView v with
  | source => preview
  | preview => source
  end.

(** The branch of [switchMode] taken when the argument is not a mouse
    event, with the mode decided. *)
Definition switchTo (mode : ViewMode) (v : View) : View :=
  match mode with
  | preview =>
      let v := set_currentView preview v in
      let v := set_changeModeIcon "pencil" v in
      let v := set_changeModeLabel "Edit (Ctrl+Click to edit in new pane)" v in
      let v := renderPreview (recipe v) v in
      let v := set_previewDisplay "block" v in
      set_sourceDisplay "none" v
  | source =>
      let v := set_currentView source v in
      let v := set_changeModeIcon "lines-of-text" v in
      let v := set_changeModeLabel "Preview (Ctrl+Click to open in new pane)" v in
      let v := set_previewDisplay "none" v in
      let v := set_sourceDisplay "block" v in
      set_measures (S (measures v)) v
  end.

(** [setState(state, result)]: once the host has applied the state, the
    view switches to [state.mode] if there is one.  The host's own part
    of [setState] is taken to leave the fields of the view alone. *)
Definition setState (mode : option ViewMode) (v : View) : View :=
  match mode with
  | Some m => switchTo m v
  | None => v
  end.

(** [switchMode(arg)].  A plain click goes through [setState]; a click
    with a modifier duplicates the leaf and sets the mode of the copy,
    another view, so this one does not change. *)
Definition switchMode (arg : SwitchArg) (v : View) : View :=
  match arg with
  | ArgNone => switchTo (toggled v) v
  | ArgMode mode => switchTo mode v
  | ArgMouse true => v
  | ArgMouse false => setState (Some (toggled v)) v
  end.

(** [editorView.dispatch({ changes: { from: 0, to: doc.length, insert } })]:
    the whole document is replaced. *)
Definition dispatch_replace_all (insert : string) (v : View) : View :=
  set_doc insert v.

(** [clear()]. *)
Definition clear (v : View) : View :=
  let v := set_previewEl [] v in
  let v := dispatch_replace_all "" v in
  set_data "" v.

Section Parser.

(** [new Recipe(text)], the parser of the cooklang library. *)
Variable parse : string → Recipe.t.

(** [getViewData()]: the view after the call, and the text returned. *)
Definition getViewData (v : View) : View * string :=
  let v := set_data (doc v) v in
  let v := set_recipe (Some (parse (data v))) v in
  (v, data v).

(** [setViewData(data, clear)]. *)
Definition setViewData (data : string) (clear : bool) (v : View) : View :=
  let v := set_data data v in
  let v :=
    if clear then dispatch_replace_all data v
    else dispatch_replace_all data v in
  let v := set_recipe (Some (parse data)) v in
  if decide (currentView v = preview) then renderPreview (recipe v) v
  else v.

(** *** Events

    What can happen to an open view between two handler runs: a click
    on the button of a timer, the callback of an interval, the host
    calling a method of the view, an edit in the source editor, the end
    of an alarm sound, a change of the file or of its folder. *)
Inductive Event :=
| EvClick (w : nat) (now : Z)
| EvTick (h : nat) (now : Z)
| EvSetViewData (data : string) (clear : bool)
| EvGetViewData
| EvClear
| EvSwitchMode (arg : SwitchArg)
| EvSetState (mode : option ViewMode)
| EvEdit (doc : string)
| EvAlarmEnd
| EvVault (file : option TFile.t) (siblings : list TAbstractFile).

Definition step (v : View) (e : Event) : View :=
  match e with
  | EvClick w now => click w now v
  | EvTick h now => tick h now v
  | EvSetViewData data clear => setViewData data clear v
  | EvGetViewData => fst (getViewData v)
  | EvClear => clear v
  | EvSwitchMode arg => switchMode arg v
  | EvSetState mode => setState mode v
  | EvEdit doc => set_doc doc v
  | EvAlarmEnd =>
      set_alarmAudio {| playing := Nat.pred (playing (alarmAudio v)) |} v
  | EvVault file siblings => set_siblings siblings (set_file file v)
  end.

Definition run (v : View) (evs : list Event) : View := foldl step v evs.

End Parser.

(** The view after the constructor and [onload]: both containers empty,
    the editor empty, no recipe yet, source mode. *)
Definition init (st : CooklangSettings) (file : option TFile.t)
    (siblings : list TAbstractFile) : View :=
  {| settings := st; file := file; siblings := siblings;
     previewEl := []; previewDisplay := ""; sourceDisplay := "block";
     doc := ""; measures := O; recipe := None;
     changeModeIcon := "lines-of-text";
     changeModeLabel := "Preview (Ctrl+Click to open in new pane)";
     currentView := source;
     alarmAudio := {| playing := O |}; timerAudio := {| playing := O |};
     data := ""; widgets := []; intervals := ∅; nextInterval := 1%nat;
     notifications := [] |}.

(** ** Reading the preview *)

(** Whether a node carries the class [c], as far as the tree tells: the
    ['running'] class of a timer's span is in the timer's record. *)
Definition hasClass (c : string) (n : Node) : bool :=
  match n with
  | El _ cls _ => existsb (String.eqb c) cls
  | Img cls _ => String.eqb c cls
  | TimerSpan _ => String.eqb c "timer"
  | Text _ => false
  end.

(** Whether the preview has a child of class [c]: each section of the
    preview puts its header and its body directly under [previewEl]. *)
Definition shows (c : string) (v : View) : bool :=
  existsb (hasClass c) (previewEl v).

(** The items of the method list. *)
Definition methodItems (v : View) : list Node :=
  match last (previewEl v) with
  | Some (El "ol" ["method"] items) => items
  | _ => []
  end.

(** Whether the [i]-th item of the method list starts with a step image. *)
Definition showsStepImage (i : nat) (v : View) : bool :=
  match methodItems v !! i with
  | Some (El _ _ children) => existsb (hasClass "step-image") children
  | _ => false
  end.

(** The live schedules: the handles of the intervals not yet cleared. *)
Definition liveSchedules (v : View) : gset nat := dom (intervals v).

(** A timer is idle when it has no deadline, as the click listener tests
    it, and running otherwise. *)
Definition Idle (w : TimerWidget) : Prop := end_ w = None.
Definition Running (w : TimerWidget) : Prop := is_Some (end_ w).

(** Two digits, the first possibly zero: the spec's [MM] and [SS]. *)
Definition twoDigits (n : Z) : string :=
  String.String (ascii_of_nat (Z.to_nat (48 + n `div` 10)))
    (String.String (ascii_of_nat (Z.to_nat (48 + n `mod` 10))) EmptyString).

(** The timers that the buttons under a node are bound to, from left to
    right. *)
Fixpoint timerRefs (n : Node) : list nat :=
  match n with
  | TimerSpan w => [w]
  | El _ _ children => flat_map timerRefs children
  | Text _ | Img _ _ => []
  end.

(** The same node with every button bound to the timer [k] places
    further. *)
Fixpoint shiftTimers (k : nat) (n : Node) : Node :=
  match n with
  | TimerSpan w => TimerSpan (k + w)
  | El tag cls children => El tag cls (map (shiftTimers k) children)
  | Text _ | Img _ _ => n
  end.

(** The timers of the buttons that the preview shows. *)
Definition previewTimers (v : View) : list nat :=
  flat_map timerRefs (previewEl v).

(** The inline timer references of a recipe: the timer parts of the
    texts of its steps. *)
Definition isTimerPart (p : Part) : bool :=
  match p with
  | PTimer _ => true
  | _ => false
  end.

Definition inlineTimers (steps : list Step.t) : nat :=
  foldr (λ step n, (length (filter isTimerPart (stepText step)) + n)%nat) O steps.

(** The number of occurrences of a character in a string. *)
Fixpoint occurrences (c : ascii) (s : string) : nat :=
  match s with
  | EmptyString => O
  | String.String a s' =>
      ((if Ascii.eqb a c then 1 else 0) + occurrences c s')%nat
  end.

(** The two ways a sibling [f] of the document [me] is bound by
    [bindFile]: as the main image, or as the image of step [i] of [n]. *)
Definition isMainImage (me f : TFile.t) : bool :=
  isImageExtension (TFile.extension f)
  && String.eqb (TFile.basename f) (TFile.basename me).

Definition isStepImage (me : TFile.t) (n i : nat) (f : TFile.t) : bool :=
  isImageExtension (TFile.extension f)
  && negb (String.eqb (TFile.basename f) (TFile.basename me))
  && bool_decide (stepIndex f n = Some i).

(** The events that are the host calling a method of the view or the
    user acting outside the timers: all but clicks on timer buttons and
    interval callbacks. *)
Definition isTimerEvent (e : Event) : bool :=
  match e with
  | EvClick _ _ | EvTick _ _ => true
  | _ => false
  end.


(** * Properties *)

(** ** The formatters *)

Lemma padStart_twoDigits_nat (n : nat) :
  (n < 60)%nat → JS.padStart 2 "0" (JS.String (Z.of_nat n)) = twoDigits (Z.of_nat n).
Proof.
  intros Hn.
  assert (Hall : forallb (λ k, bool_decide
            (JS.padStart 2 "0" (JS.String (Z.of_nat k)) = twoDigits (Z.of_nat k)))
            (seq 0 60) = true) by (vm_compute; reflexivity).
  rewrite forallb_forall in Hall.
  specialize (Hall n). rewrite bool_decide_eq_true in Hall.
  apply Hall, in_seq. lia.
Qed.

Lemma padStart_twoDigits (n : Z) :
  0 ≤ n < 60 → JS.padStart 2 "0" (JS.String n) = twoDigits n.
Proof.
  intros Hn. rewrite <- (Z2Nat.id n) by lia.
  apply padStart_twoDigits_nat. lia.
Qed.

Lemma clock_fields (time : Z) :
  0 ≤ time →
  JS.rem time 3600 = time `mod` 3600 ∧ JS.rem time 60 = time `mod` 60
  ∧ 0 ≤ (time `mod` 3600) `div` 60 < 60 ∧ 0 ≤ time `mod` 60 < 60.
Proof.
  intros Ht. unfold JS.rem.
  rewrite !Z.rem_mod_nonneg by lia.
  pose proof (Z.mod_pos_bound time 3600 ltac:(lia)).
  pose proof (Z.mod_pos_bound time 60 ltac:(lia)).
  repeat split; try lia.
  - apply Z.div_pos; lia.
  - apply Z.div_lt_upper_bound; lia.
Qed.

(** The total time of a recipe does not depend on the images bound to it. *)
Lemma bindFile_timers me r f : Recipe.timers (bindFile me r f) = Recipe.timers r.
Proof.
  unfold bindFile.
  repeat (case_match; simpl; try reflexivity).
Qed.

Lemma bindImages_timers file sibs r :
  Recipe.timers (bindImages file sibs r) = Recipe.timers r.
Proof.
  unfold bindImages. destruct file as [me|]; [|reflexivity].
  generalize (otherFiles (Some me) sibs). intros fs. revert r.
  induction fs as [|f fs IH]; intros r; simpl; [reflexivity|].
  rewrite IH. apply bindFile_timers.
Qed.

Lemma bindImages_totalTime file sibs r :
  Recipe.calculateTotalTime (bindImages file sibs r) = Recipe.calculateTotalTime r.
Proof. unfold Recipe.calculateTotalTime. by rewrite bindImages_timers. Qed.

(** The recipe as [renderPreview] leaves it: with the images bound when
    images are shown, untouched otherwise. *)
Definition boundRecipe (v : View) (r : Recipe.t) : Recipe.t :=
  if showImages (settings v) then bindImages (file v) (siblings v) r else r.

Lemma boundRecipe_totalTime v r :
  Recipe.calculateTotalTime (boundRecipe v r) = Recipe.calculateTotalTime r.
Proof. unfold boundRecipe. case_match; [apply bindImages_totalTime | done]. Qed.

(** The preview of a recipe, section by section. *)
Lemma renderPreview_sections (v : View) (r : Recipe.t) :
  let st := settings v in
  let r' := boundRecipe v r in
  ∃ items ws,
    renderSteps (showImages st) (Recipe.steps r') (widgets v) = (items, ws)
    ∧ recipe (renderPreview (Some r) v) = Some r'
    ∧ widgets (renderPreview (Some r) v) = ws
    ∧ previewEl (renderPreview (Some r) v) =
        (if showImages st then
           match Recipe.image r' with
           | Some f => [Img "main-image" f]
           | None => []
           end
         else [])
        ++ (if showIngredientList st then
              [createEl "h2" "ingredients-header" "Ingredients";
               El "ul" ["ingredients"] (renderIngredient <$> Recipe.ingredients r')]
            else [])
        ++ (if showCookwareList st then
              [createEl "h2" "cookware-header" "Cookware";
               El "ul" ["cookware"] (renderCookware <$> Recipe.cookware r')]
            else [])
        ++ (if showTimersList st then
              [createEl "h2" "timer-header" "Timers";
               El "ul" ["timers"] (renderTimer <$> Recipe.timers r')]
            else [])
        ++ (if showTotalTime st && (0 <? Recipe.calculateTotalTime r) then
              [createEl "h2" "time-header" "Total Time";
               createEl "p" "time" (formatTime (Recipe.calculateTotalTime r) false)]
            else [])
        ++ [createEl "h2" "method-header" "Method"; El "ol" ["method"] items].
Proof.
  intros st r'. unfold renderPreview. simpl.
  fold st. change (if showImages st then bindImages (file v) (siblings v) r else r) with r'.
  destruct (renderSteps (showImages st) (Recipe.steps r') (widgets v)) as [items ws] eqn:E.
  exists items, ws. simpl. repeat split.
  subst r'. rewrite boundRecipe_totalTime.
  destruct (showTotalTime st); simpl; [|reflexivity].
  destruct (0 <? Recipe.calculateTotalTime r); reflexivity.
Qed.

(** C5. The summary formatter gives [Xh Ym] for an hour or more, [Xm]
    from a minute up to an hour and [Xs] otherwise (below a minute, and
    for a negative number, whose seconds are its remainder by 60); it
    adds the seconds to the first two forms only under the verbose flag.
    125 seconds give "2m", 3725 seconds give "1h 2m".  A recipe whose
    total time is 0 has no total-time section in its preview. *)
Theorem formatTime_summary (time : Z) :
  let X := JS.String in
  (3600 ≤ time →
     formatTime time false
       = X (time `div` 3600) +:+ "h " +:+ X ((time `mod` 3600) `div` 60) +:+ "m"
     ∧ formatTime time true
       = X (time `div` 3600) +:+ "h " +:+ X ((time `mod` 3600) `div` 60) +:+ "m"
           +:+ " " +:+ X (time `mod` 60) +:+ "s")
  ∧ (60 ≤ time < 3600 →
       formatTime time false = X (time `div` 60) +:+ "m"
       ∧ formatTime time true
         = X (time `div` 60) +:+ "m" +:+ " " +:+ X (time `mod` 60) +:+ "s")
  ∧ (0 ≤ time < 60 → ∀ verbose, formatTime time verbose = X time +:+ "s")
  ∧ (time < 0 → ∀ verbose, formatTime time verbose = X (time `rem` 60) +:+ "s")
  ∧ formatTime 125 false = "2m"
  ∧ formatTime 3725 false = "1h 2m"
  ∧ (∀ (v : View) (r : Recipe.t),
       Recipe.calculateTotalTime r = 0 →
       shows "time-header" (renderPreview (Some r) v) = false
       ∧ shows "time" (renderPreview (Some r) v) = false).
Proof.
  intros X.
  split; [|split; [|split; [|split; [|split; [|split]]]]].
  - intros Hh. destruct (clock_fields time) as (Hr1 & Hr2 & Hm & Hs); [lia|].
    unfold formatTime, JS.floor_div. rewrite Hr1, Hr2.
    assert (0 < time `div` 3600) as ->%Z.ltb_lt
      by (apply Z.div_str_pos; lia).
    by split.
  - intros Hh. destruct (clock_fields time) as (Hr1 & Hr2 & Hm & Hs); [lia|].
    unfold formatTime, JS.floor_div. rewrite Hr1, Hr2.
    rewrite (Z.div_small time 3600), (Z.mod_small time 3600) by lia.
    assert (0 < time `div` 60) as ->%Z.ltb_lt
      by (apply Z.div_str_pos; lia).
    by split.
  - intros Hh verbose.
    destruct (clock_fields time) as (Hr1 & Hr2 & Hm & Hs); [lia|].
    unfold formatTime, JS.floor_div. rewrite Hr1, Hr2.
    rewrite (Z.div_small time 3600), (Z.mod_small time 3600) by lia.
    rewrite (Z.div_small time 60), (Z.mod_small time 60) by lia.
    reflexivity.
  - intros Hneg verbose. unfold formatTime, JS.floor_div, JS.rem.
    assert (time `div` 3600 < 0) by (apply Z.div_lt_upper_bound; lia).
    assert (time `rem` 3600 ≤ 0) by (apply Z.rem_nonpos; lia).
    assert ((time `rem` 3600) `div` 60 ≤ 0)
      by (apply Z.div_le_upper_bound; lia).
    destruct (Z.ltb_spec 0 (time `div` 3600)); [lia|].
    destruct (Z.ltb_spec 0 ((time `rem` 3600) `div` 60)); [lia|].
    reflexivity.
  - reflexivity.
  - reflexivity.
  - intros v r H0. unfold shows.
    destruct (renderPreview_sections v r) as (items & ws & _ & _ & _ & ->).
    rewrite H0. rewrite andb_false_r.
    destruct (showImages (settings v)), (Recipe.image (boundRecipe v r)),
      (showIngredientList (settings v)), (showCookwareList (settings v)),
      (showTimersList (settings v)); split; reflexivity.
Qed.

Lemma formatTime_summary_witness :
  formatTime 7384 false = "2h 3m" ∧ formatTime 7384 true = "2h 3m 4s".
Proof.
  destruct (formatTime_summary 7384) as [H _].
  apply H. lia.
Defined.

(** C6. The countdown formatter gives [H:MM:SS] for an hour or more and
    [M:SS] below, minutes and seconds of the first form and seconds of
    the second on two digits; 45 seconds give "0:45", 3661 seconds give
    "1:01:01". *)
Theorem formatTimeForTimer_clock (time : Z) :
  (3600 ≤ time →
     formatTimeForTimer time
       = JS.String (time `div` 3600) +:+ ":"
           +:+ twoDigits ((time `mod` 3600) `div` 60) +:+ ":"
           +:+ twoDigits (time `mod` 60))
  ∧ (0 ≤ time < 3600 →
       formatTimeForTimer time
         = JS.String (time `div` 60) +:+ ":" +:+ twoDigits (time `mod` 60))
  ∧ formatTimeForTimer 45 = "0:45"
  ∧ formatTimeForTimer 3661 = "1:01:01".
Proof.
  split; [|split; [|split]]; try reflexivity.
  - intros Hh. destruct (clock_fields time) as (Hr1 & Hr2 & Hm & Hs); [lia|].
    unfold formatTimeForTimer, JS.floor_div. rewrite Hr1, Hr2.
    assert (0 < time `div` 3600) as ->%Z.ltb_lt
      by (apply Z.div_str_pos; lia).
    rewrite !padStart_twoDigits by lia. reflexivity.
  - intros Hh. destruct (clock_fields time) as (Hr1 & Hr2 & Hm & Hs); [lia|].
    unfold formatTimeForTimer, JS.floor_div. rewrite Hr1, Hr2.
    rewrite (Z.div_small time 3600), (Z.mod_small time 3600) by lia.
    change (0 <? 0) with false. cbv iota.
    rewrite padStart_twoDigits by lia. reflexivity.
Qed.

Lemma formatTimeForTimer_clock_witness :
  formatTimeForTimer 86399 = "23:59:59" ∧ formatTimeForTimer 600 = "10:00".
Proof.
  destruct (formatTimeForTimer_clock 86399) as [H _].
  destruct (formatTimeForTimer_clock 600) as (_ & H' & _).
  split; [rewrite H by lia | rewrite H' by lia]; reflexivity.
Defined.

(** ** The sections of the preview *)

Lemma renderStep_image showI step ws :
  ∃ children ws',
    renderStep showI step ws = (El "li" [] children, ws')
    ∧ existsb (hasClass "step-image") children
      = showI && bool_decide (is_Some (Step.image step)).
Proof.
  unfold renderStep.
  destruct (renderParts (stepText step) ws) as [ns ws'].
  eexists _, _. split; [reflexivity|].
  destruct (Step.image step), showI; reflexivity.
Qed.

Lemma renderSteps_image showI steps :
  ∀ ws items ws' i,
    renderSteps showI steps ws = (items, ws') →
    match items !! i with
    | Some (El _ _ children) => existsb (hasClass "step-image") children
    | _ => false
    end = showI && bool_decide (is_Some (steps !! i ≫= Step.image)).
Proof.
  induction steps as [|step steps IH]; intros ws items ws' i; simpl.
  - intros [= <- <-]. rewrite lookup_nil. simpl. by rewrite andb_false_r.
  - destruct (renderStep_image showI step ws) as (children & ws1 & -> & Himg).
    destruct (renderSteps showI steps ws1) as [ns ws2] eqn:E.
    intros [= <- <-]. destruct i as [|i]; simpl.
    + exact Himg.
    + exact (IH ws1 ns ws2 i E).
Qed.

Definition allShown : CooklangSettings :=
  {| showImages := true; showIngredientList := true; showCookwareList := true;
     showTimersList := true; showTotalTime := true |}.

Definition emptyRecipe : Recipe.t :=
  {| Recipe.ingredients := []; Recipe.cookware := []; Recipe.timers := [];
     Recipe.steps := []; Recipe.image := None |}.

(** What [renderPreview] leaves alone: everything but the preview, the
    recipe (its images) and the timers, to which it only adds. *)
Lemma renderPreview_frame (o : option Recipe.t) (v : View) :
  let v' := renderPreview o v in
  settings v' = settings v ∧ file v' = file v ∧ siblings v' = siblings v
  ∧ doc v' = doc v ∧ data v' = data v ∧ currentView v' = currentView v
  ∧ intervals v' = intervals v ∧ nextInterval v' = nextInterval v
  ∧ alarmAudio v' = alarmAudio v ∧ timerAudio v' = timerAudio v
  ∧ notifications v' = notifications v.
Proof.
  unfold renderPreview. destruct o as [r|]; [|by repeat split].
  simpl. destruct (renderSteps _ _ _) as [items ws]. by repeat split.
Qed.

Lemma renderPreview_shows_method (v : View) (r : Recipe.t) :
  shows "method" (renderPreview (Some r) v) = true.
Proof.
  unfold shows.
  destruct (renderPreview_sections v r) as (items & ws & _ & _ & _ & ->).
  rewrite !existsb_app. simpl. by rewrite !orb_true_r.
Qed.

(** C3, as stated, fails: with every toggle on, the preview of a recipe
    that has no ingredient, no cookware and no timer still has the three
    list sections (a header over an empty list). *)
Lemma empty_lists_are_shown :
  let v := renderPreview (Some emptyRecipe) (init allShown None []) in
  Recipe.ingredients emptyRecipe = []
  ∧ Recipe.cookware emptyRecipe = []
  ∧ Recipe.timers emptyRecipe = []
  ∧ shows "ingredients-header" v = true ∧ shows "ingredients" v = true
  ∧ shows "cookware-header" v = true ∧ shows "cookware" v = true
  ∧ shows "timer-header" v = true ∧ shows "timers" v = true.
Proof. repeat split. Qed.

(** C3, amended.  In the preview of a recipe, the three list sections
    (ingredients, cookware, timers) appear exactly when their toggle is
    on, whether the list is empty or not; the total-time section appears
    exactly when its toggle is on and the total time is positive; the
    main image appears exactly when images are shown and the recipe, once
    the images are bound, has one; the image of a step likewise; the
    method section always appears. *)
Theorem sections_follow_toggles (v : View) (r : Recipe.t) :
  let st := settings v in
  let v' := renderPreview (Some r) v in
  let r' := boundRecipe v r in
  recipe v' = Some r'
  ∧ shows "main-image" v' = showImages st && bool_decide (is_Some (Recipe.image r'))
  ∧ shows "ingredients-header" v' = showIngredientList st
  ∧ shows "ingredients" v' = showIngredientList st
  ∧ shows "cookware-header" v' = showCookwareList st
  ∧ shows "cookware" v' = showCookwareList st
  ∧ shows "timer-header" v' = showTimersList st
  ∧ shows "timers" v' = showTimersList st
  ∧ shows "time-header" v' = showTotalTime st && (0 <? Recipe.calculateTotalTime r')
  ∧ shows "time" v' = showTotalTime st && (0 <? Recipe.calculateTotalTime r')
  ∧ shows "method-header" v' = true
  ∧ shows "method" v' = true
  ∧ ∀ i, showsStepImage i v'
         = showImages st && bool_decide (is_Some (Recipe.steps r' !! i ≫= Step.image)).
Proof.
  intros st v' r'.
  destruct (renderPreview_sections v r) as (items & ws & Hsteps & Hr & _ & Hel).
  fold st v' r' in Hsteps, Hr, Hel.
  assert (Htime : Recipe.calculateTotalTime r' = Recipe.calculateTotalTime r)
    by apply boundRecipe_totalTime.
  rewrite Htime. clearbody st v' r'.
  assert (Hitems : methodItems v' = items).
  { unfold methodItems. rewrite Hel.
    destruct (showImages st), (Recipe.image r'), (showIngredientList st),
      (showCookwareList st), (showTimersList st),
      (showTotalTime st && (0 <? Recipe.calculateTotalTime r)); reflexivity. }
  split; [exact Hr|].
  unfold shows, showsStepImage. rewrite Hitems, Hel. clear Hel Hitems Hr.
  repeat split;
    try (destruct (showImages st), (Recipe.image r'), (showIngredientList st),
           (showCookwareList st), (showTimersList st), (showTotalTime st),
           (0 <? Recipe.calculateTotalTime r); reflexivity).
  intros i. exact (renderSteps_image _ _ _ _ _ i Hsteps).
Qed.

(** ** Image binding *)

Definition plainStep (s : string) : Step.t :=
  {| Step.text := Some [PString s]; Step.line := None; Step.image := None |}.

Definition twoSteps : Recipe.t :=
  {| Recipe.ingredients := []; Recipe.cookware := []; Recipe.timers := [];
     Recipe.steps := [plainStep "Mix."; plainStep "Bake."];
     Recipe.image := None |}.

Definition oneStep : Recipe.t :=
  {| Recipe.ingredients := []; Recipe.cookware := []; Recipe.timers := [];
     Recipe.steps := [plainStep "Mix."]; Recipe.image := None |}.

(** The example of the spec: next to [recipe.cook], a recipe of two
    steps, the siblings [recipe.jpg], [recipe.0.png] and [recipe.3.gif]
    bind a main image and the image of step 0, and nothing else. *)
Lemma asset_binding_example :
  let doc := TFile.make "recipe" "cook" in
  let jpg := TFile.make "recipe" "jpg" in
  let png := TFile.make "recipe.0" "png" in
  let gif := TFile.make "recipe.3" "gif" in
  let r := bindImages (Some doc) [AFile doc; AFile jpg; AFile png; AFile gif] twoSteps in
  Recipe.image r = Some jpg
  ∧ Step.image <$> Recipe.steps r = [Some png; None].
Proof. split; reflexivity. Qed.

(** A step image binds for a document whose base name has no dot. *)
Lemma plain_document_step_image_bound :
  let doc := TFile.make "recipe" "cook" in
  let png := TFile.make "recipe.0" "png" in
  stepIndex png 1 = Some 0%nat
  ∧ Step.image <$> Recipe.steps (bindImages (Some doc) [AFile doc; AFile png] oneStep)
    = [Some png].
Proof. split; reflexivity. Qed.

(** [parseInt] reads the longest numeric prefix: a suffix that only
    starts with digits is bound as well. *)
Lemma lenient_suffix_is_bound :
  stepIndex (TFile.make "recipe.0abc" "png") 2 = Some 0%nat
  ∧ stepIndex (TFile.make "recipe.0x1" "png") 2 = Some 1%nat
  ∧ stepIndex (TFile.make "recipe.abc" "png") 2 = None
  ∧ stepIndex (TFile.make "recipe.-1" "png") 2 = None.
Proof. repeat split. Qed.

(** C4, the code at the failing input.  The document [a.b.cook] has one
    step, and its sibling [a.b.0.png] has an accepted extension and the
    base name [<docBaseName>.0]; the sibling passes the filter of
    [otherFiles], but its base name splits on dots in three pieces, so no
    step is found for it and step 0 gets no image.  The main image of the
    same document, [a.b.jpg], does bind. *)
Theorem dotted_document_step_image_unbound :
  let doc := TFile.make "a.b" "cook" in
  let png := TFile.make "a.b.0" "png" in
  let jpg := TFile.make "a.b" "jpg" in
  let sibs := [AFile doc; AFile png; AFile jpg] in
  let v := renderPreview (Some oneStep) (init allShown (Some doc) sibs) in
  otherFiles (Some doc) sibs = [png; jpg]
  ∧ isImageExtension (TFile.extension png) = true
  ∧ TFile.basename png = TFile.basename doc +:+ "." +:+ "0"
  ∧ JS.parseInt "0" = Some 0
  ∧ JS.split "." (TFile.basename png) = ["a"; "b"; "0"]
  ∧ stepIndex png (length (Recipe.steps oneStep)) = None
  ∧ Step.image <$> Recipe.steps (bindImages (Some doc) sibs oneStep) = [None]
  ∧ Recipe.image (bindImages (Some doc) sibs oneStep) = Some jpg
  ∧ showsStepImage 0 v = false
  ∧ shows "main-image" v = true.
Proof. repeat split. Qed.

(** ** The mode controller *)

Section Controller.

Variable parse : string → Recipe.t.

(** C7. [setViewData] does the same under both values of its flag: the
    text becomes the local text and the whole content of the editor,
    the recipe is parsed again from it, and the preview is rendered
    again exactly when the view is in preview mode. *)
Theorem setViewData_flag_irrelevant (v : View) (text : string) (flag : bool) :
  setViewData parse text flag v = setViewData parse text (negb flag) v
  ∧ setViewData parse text flag v
    = (let v' := set_recipe (Some (parse text)) (set_doc text (set_data text v)) in
       match currentView v with
       | preview => renderPreview (Some (parse text)) v'
       | source => v'
       end)
  ∧ data (setViewData parse text flag v) = text
  ∧ doc (setViewData parse text flag v) = text
  ∧ currentView (setViewData parse text flag v) = currentView v
  ∧ (currentView v = source →
     recipe (setViewData parse text flag v) = Some (parse text)
     ∧ previewEl (setViewData parse text flag v) = previewEl v
     ∧ widgets (setViewData parse text flag v) = widgets v)
  ∧ (currentView v = preview →
     recipe (setViewData parse text flag v) = Some (boundRecipe v (parse text))
     ∧ shows "method" (setViewData parse text flag v) = true).
Proof.
  assert (Heq : setViewData parse text flag v
    = (let v' := set_recipe (Some (parse text)) (set_doc text (set_data text v)) in
       match currentView v with
       | preview => renderPreview (Some (parse text)) v'
       | source => v'
       end)).
  { unfold setViewData, dispatch_replace_all.
    destruct flag; simpl; destruct (currentView v); reflexivity. }
  split; [|split; [exact Heq|]].
  { unfold setViewData. destruct flag; reflexivity. }
  rewrite Heq. cbv zeta.
  set (v' := set_recipe _ _).
  destruct (renderPreview_sections v' (parse text))
    as (items & ws & _ & Hr & Hw & Hel).
  destruct (renderPreview_frame (Some (parse text)) v')
    as (_ & _ & _ & Hdoc & Hdata & Hcur & _).
  destruct (currentView v) eqn:Hcv.
  - repeat split; try discriminate; exact Hcv.
  - rewrite Hdoc, Hdata, Hcur.
    repeat split; try discriminate; try exact Hcv; try exact Hr.
    apply renderPreview_shows_method.
Qed.

End Controller.

Lemma renderSteps_length showI steps :
  ∀ ws items ws',
    renderSteps showI steps ws = (items, ws') → length items = length steps.
Proof.
  induction steps as [|step steps IH]; intros ws items ws'; simpl.
  - by intros [= <- <-].
  - destruct (renderStep showI step ws) as [n ws1].
    destruct (renderSteps showI steps ws1) as [ns ws2] eqn:E.
    intros [= <- <-]. simpl. f_equal. exact (IH _ _ _ E).
Qed.

Lemma bindFile_steps_length me r f :
  length (Recipe.steps (bindFile me r f)) = length (Recipe.steps r).
Proof.
  unfold bindFile.
  repeat (case_match; simpl; try reflexivity).
  apply length_alter.
Qed.

Lemma boundRecipe_steps_length v r :
  length (Recipe.steps (boundRecipe v r)) = length (Recipe.steps r).
Proof.
  unfold boundRecipe, bindImages.
  destruct (showImages (settings v)); [|reflexivity].
  destruct (file v) as [me|]; [|reflexivity].
  generalize (otherFiles (Some me) (siblings v)). intros fs. revert r.
  induction fs as [|f fs IH]; intros r; simpl; [reflexivity|].
  rewrite IH. apply bindFile_steps_length.
Qed.

Lemma renderPreview_methodItems (v : View) (r : Recipe.t) :
  length (methodItems (renderPreview (Some r) v)) = length (Recipe.steps r).
Proof.
  destruct (renderPreview_sections v r) as (items & ws & Hsteps & _ & _ & Hel).
  unfold methodItems. rewrite Hel.
  rewrite <- (boundRecipe_steps_length v r).
  rewrite <- (renderSteps_length _ _ _ _ _ Hsteps).
  destruct (showImages (settings v)), (Recipe.image (boundRecipe v r)),
    (showIngredientList (settings v)), (showCookwareList (settings v)),
    (showTimersList (settings v)),
    (showTotalTime (settings v) && (0 <? Recipe.calculateTotalTime r));
    reflexivity.
Qed.

(** Entering preview mode renders the current recipe; the mode, the
    button and the display styles do not enter the rendering. *)
Lemma switchTo_preview (v : View) :
  let u := set_changeModeLabel "Edit (Ctrl+Click to edit in new pane)"
             (set_changeModeIcon "pencil" (set_currentView preview v)) in
  previewEl (switchTo preview v) = previewEl (renderPreview (recipe v) u)
  ∧ recipe (switchTo preview v) = recipe (renderPreview (recipe v) u)
  ∧ widgets (switchTo preview v) = widgets (renderPreview (recipe v) u)
  ∧ intervals (switchTo preview v) = intervals v.
Proof.
  intros u. repeat split.
  unfold switchTo. simpl. fold u.
  by destruct (renderPreview_frame (recipe v) u) as (_&_&_&_&_&_& -> &_).
Qed.

(** C9. [clear()] empties the preview, the editor and the local text and
    keeps the parsed recipe; switching to preview afterwards renders
    that recipe again: the preview is the one the old recipe gives, with
    its method section and one item for each of its steps, not an empty
    one. *)
Theorem clear_keeps_recipe (v : View) :
  let v' := clear v in
  previewEl v' = [] ∧ doc v' = "" ∧ data v' = ""
  ∧ recipe v' = recipe v
  ∧ previewEl (switchMode (ArgMode preview) v') = previewEl (renderPreview (recipe v) v)
  ∧ (∀ r, recipe v = Some r →
       recipe (switchMode (ArgMode preview) v') = Some (boundRecipe v r)
       ∧ shows "method-header" (switchMode (ArgMode preview) v') = true
       ∧ shows "method" (switchMode (ArgMode preview) v') = true
       ∧ length (methodItems (switchMode (ArgMode preview) v'))
         = length (Recipe.steps r)).
Proof.
  intros v'. subst v'.
  change (switchMode (ArgMode preview) (clear v)) with (switchTo preview (clear v)).
  destruct (switchTo_preview (clear v)) as (Hel & Hrec & _).
  set (u := set_changeModeLabel _ _) in *.
  change (recipe (clear v)) with (recipe v) in Hel, Hrec.
  unfold shows. rewrite Hel, Hrec.
  split; [reflexivity|]. split; [reflexivity|]. split; [reflexivity|].
  split; [reflexivity|]. split.
  - unfold renderPreview. simpl.
    destruct (recipe v) as [r|]; [|reflexivity]. simpl.
    destruct (renderSteps _ _ _) as [items ws]. reflexivity.
  - intros r Hr. rewrite Hr.
    destruct (renderPreview_sections u r) as (items & ws & _ & Hrec' & _ & Hel').
    split; [exact Hrec'|].
    split; [|split].
    + rewrite Hel'. rewrite !existsb_app. simpl. by rewrite !orb_true_r.
    + apply renderPreview_shows_method.
    + unfold methodItems. rewrite Hel, Hr.
      apply (renderPreview_methodItems u r).
Qed.

Lemma clear_keeps_recipe_witness :
  let v := set_recipe (Some twoSteps) (init allShown None []) in
  length (methodItems (switchMode (ArgMode preview) (clear v))) = 2%nat.
Proof.
  intros v.
  destruct (clear_keeps_recipe v) as (_ & _ & _ & _ & _ & H).
  apply (H twoSteps). reflexivity.
Defined.

(** ** Timers *)

(** A timer as [makeTimer] creates it. *)
Definition fresh (tw : TimerWidget) : Prop :=
  end_ tw = None ∧ interval tw = None ∧ running tw = false.

Lemma renderPart_widgets part ws :
  ∃ new, (renderPart part ws).2 = ws ++ new ∧ Forall fresh new.
Proof.
  destruct part; simpl; try (exists []; split; [by rewrite app_nil_r | constructor]).
  eexists [_]. split; [reflexivity|]. constructor; [by repeat split | constructor].
Qed.

Lemma renderParts_widgets parts :
  ∀ ws, ∃ new, (renderParts parts ws).2 = ws ++ new ∧ Forall fresh new.
Proof.
  induction parts as [|part parts IH]; intros ws; simpl.
  - exists []. split; [by rewrite app_nil_r | constructor].
  - destruct (renderPart_widgets part ws) as (n1 & H1 & F1).
    destruct (renderPart part ws) as [n ws1]. simpl in H1. subst ws1.
    destruct (IH (ws ++ n1)) as (n2 & H2 & F2).
    destruct (renderParts parts (ws ++ n1)) as [ns ws2]. simpl in *. subst ws2.
    exists (n1 ++ n2). split; [by rewrite <- (assoc_L (++)) | by apply Forall_app].
Qed.

Lemma renderSteps_widgets showI steps :
  ∀ ws, ∃ new, (renderSteps showI steps ws).2 = ws ++ new ∧ Forall fresh new.
Proof.
  induction steps as [|step steps IH]; intros ws; simpl.
  - exists []. split; [by rewrite app_nil_r | constructor].
  - unfold renderStep.
    destruct (renderParts_widgets (stepText step) ws) as (n1 & H1 & F1).
    destruct (renderParts (stepText step) ws) as [n ws1]. simpl in H1. subst ws1.
    destruct (IH (ws ++ n1)) as (n2 & H2 & F2).
    destruct (renderSteps showI steps (ws ++ n1)) as [ns ws2]. simpl in *. subst ws2.
    exists (n1 ++ n2). split; [by rewrite <- (assoc_L (++)) | by apply Forall_app].
Qed.

(** Rendering only adds timers, all of them idle: the timers made by
    earlier renderings stay as they are. *)
Lemma renderPreview_widgets (o : option Recipe.t) (v : View) :
  ∃ new, widgets (renderPreview o v) = widgets v ++ new ∧ Forall fresh new.
Proof.
  destruct o as [r|].
  - destruct (renderPreview_sections v r) as (items & ws & Hsteps & _ & -> & _).
    destruct (renderSteps_widgets (showImages (settings v))
                (Recipe.steps (boundRecipe v r)) (widgets v)) as (new & H & F).
    rewrite Hsteps in H. simpl in H. by exists new.
  - exists []. split; [by rewrite app_nil_r | constructor].
Qed.

(** The state of the timers and of the interval table fit together:
    - a timer has a deadline exactly when it has an interval, which is
      exactly when its button's parent is marked as running;
    - the interval of a timer is live and runs that timer's callback;
    - every live interval is the interval of the timer it runs;
    - handles are handed out in increasing order. *)
Record timers_ok (ws : list TimerWidget) (ivs : gmap nat nat) (next : nat) : Prop := {
  ok_state : ∀ w tw, ws !! w = Some tw →
    (end_ tw = None ↔ interval tw = None)
    ∧ (running tw = true ↔ is_Some (end_ tw));
  ok_live : ∀ w tw h, ws !! w = Some tw → interval tw = Some h → ivs !! h = Some w;
  ok_owner : ∀ h w, ivs !! h = Some w →
    ∃ tw, ws !! w = Some tw ∧ interval tw = Some h;
  ok_next : ∀ h w, ivs !! h = Some w → (h < next)%nat
}.

Definition view_ok (v : View) : Prop :=
  timers_ok (widgets v) (intervals v) (nextInterval v).

Lemma timers_ok_init next : timers_ok [] ∅ next.
Proof. split; intros *; by rewrite ?lookup_nil, ?lookup_empty. Qed.

Lemma timers_ok_extend ws ivs next new :
  timers_ok ws ivs next → Forall fresh new → timers_ok (ws ++ new) ivs next.
Proof.
  intros [Hs Hl Ho Hn] Hnew.
  assert (Hcase : ∀ w tw, (ws ++ new) !! w = Some tw → ws !! w = Some tw ∨ fresh tw).
  { intros w tw [H|[_ H]]%lookup_app_Some; [by left|right].
    eapply Forall_lookup_1; eauto. }
  split.
  - intros w tw [H|(He & Hi & Hr)]%Hcase; [by eapply Hs|].
    rewrite He, Hi, Hr. by repeat split.
  - intros w tw h [H|(He & Hi & Hr)]%Hcase Hh; [by eapply Hl|congruence].
  - intros h w (tw & H & Hi)%Ho. exists tw. split; [|done].
    by apply lookup_app_l_Some.
  - exact Hn.
Qed.

Lemma stop_fields (w : nat) (v : View) (tw : TimerWidget) :
  widgets v !! w = Some tw →
  widgets (stop w v) = <[w := set_timer_state None None false tw]> (widgets v)
  ∧ intervals (stop w v)
    = match interval tw with
      | Some h => delete h (intervals v)
      | None => intervals v
      end
  ∧ nextInterval (stop w v) = nextInterval v
  ∧ timerAudio (stop w v) = {| playing := O |}
  ∧ alarmAudio (stop w v) = alarmAudio v
  ∧ notifications (stop w v) = notifications v
  ∧ previewEl (stop w v) = previewEl v
  ∧ recipe (stop w v) = recipe v
  ∧ currentView (stop w v) = currentView v.
Proof.
  intros Hw. unfold stop. rewrite Hw.
  destruct (interval tw); by repeat split.
Qed.

Lemma timers_ok_stop ws ivs next w tw :
  timers_ok ws ivs next → ws !! w = Some tw →
  timers_ok (<[w := set_timer_state None None false tw]> ws)
    (match interval tw with Some h => delete h ivs | None => ivs end) next.
Proof.
  intros [Hs Hl Ho Hn] Hw.
  assert (Hlt : (w < length ws)%nat) by by eapply lookup_lt_Some.
  assert (Hcase : ∀ w' tw',
    <[w := set_timer_state None None false tw]> ws !! w' = Some tw' →
    (w' = w ∧ tw' = set_timer_state None None false tw)
    ∨ (w' ≠ w ∧ ws !! w' = Some tw')).
  { intros w' tw'. destruct (decide (w' = w)) as [->|Hne].
    - rewrite list_lookup_insert_eq by done. intros [= <-]. by left.
    - rewrite list_lookup_insert_ne by done. by right. }
  assert (Hdel : ∀ h' w', w' ≠ w → ivs !! h' = Some w' →
    match interval tw with Some h => delete h ivs | None => ivs end !! h' = Some w').
  { intros h' w' Hne Hh'. destruct (interval tw) as [h|] eqn:Hi; [|done].
    rewrite lookup_delete_ne; [done|]. intros <-.
    pose proof (Hl _ _ _ Hw Hi). congruence. }
  split.
  - intros w' tw' [[-> ->]|[Hne H]]%Hcase; [|by eapply Hs].
    simpl. by repeat split.
  - intros w' tw' h' [[-> ->]|[Hne H]]%Hcase Hi'; [done|].
    apply Hdel; [done|]. by eapply Hl.
  - intros h' w' Hh'.
    assert (Hold : ivs !! h' = Some w' ∧ interval tw ≠ Some h').
    { destruct (interval tw) as [h|]; [|done].
      apply lookup_delete_Some in Hh' as [? ?]. split; congruence. }
    destruct Hold as [Hold Hne].
    destruct (Ho _ _ Hold) as (tw' & Hw' & Hi').
    exists tw'. split; [|done].
    rewrite list_lookup_insert_ne; [done|]. intros ->. congruence.
  - intros h' w' Hh'. apply (Hn h' w').
    destruct (interval tw); [|done].
    by apply lookup_delete_Some in Hh' as [? ?].
Qed.

Lemma view_ok_stop (w : nat) (v : View) : view_ok v → view_ok (stop w v).
Proof.
  intros Hok. destruct (widgets v !! w) as [tw|] eqn:Hw.
  - destruct (stop_fields w v tw Hw) as (Hws & Hiv & Hnx & _).
    unfold view_ok. rewrite Hws, Hiv, Hnx. by apply timers_ok_stop.
  - unfold stop. by rewrite Hw.
Qed.

Lemma click_idle_fields (w : nat) (now : Z) (v : View) (tw : TimerWidget) :
  widgets v !! w = Some tw → end_ tw = None →
  let h := nextInterval v in
  widgets (click w now v)
    = <[w := set_timer_state (Some (now + seconds tw * 1000)) (Some h) true tw]> (widgets v)
  ∧ intervals (click w now v) = <[h := w]> (intervals v)
  ∧ nextInterval (click w now v) = S h
  ∧ timerAudio (click w now v) = timerAudio v
  ∧ alarmAudio (click w now v) = alarmAudio v
  ∧ notifications (click w now v) = notifications v.
Proof. intros Hw He. unfold click. rewrite Hw, He. by repeat split. Qed.

Lemma click_running (w : nat) (now : Z) (v : View) (tw : TimerWidget) :
  widgets v !! w = Some tw → is_Some (end_ tw) → click w now v = stop w v.
Proof. intros Hw [e He]. unfold click. by rewrite Hw, He. Qed.

Lemma view_ok_click (w : nat) (now : Z) (v : View) :
  view_ok v → view_ok (click w now v).
Proof.
  intros Hok. destruct (widgets v !! w) as [tw|] eqn:Hw;
    [|unfold click; by rewrite Hw].
  destruct (end_ tw) as [e|] eqn:He.
  { rewrite (click_running w now v tw) by (rewrite ?He; eauto).
    by apply view_ok_stop. }
  destruct (click_idle_fields w now v tw Hw He) as (Hws & Hiv & Hnx & _).
  unfold view_ok. rewrite Hws, Hiv, Hnx.
  destruct Hok as [Hs Hl Ho Hn].
  assert (Hlt : (w < length (widgets v))%nat) by by eapply lookup_lt_Some.
  assert (Hfree : intervals v !! nextInterval v = None).
  { destruct (intervals v !! nextInterval v) as [w'|] eqn:E; [|done].
    apply Hn in E. lia. }
  split.
  - intros w' tw'. destruct (decide (w' = w)) as [->|Hne].
    + rewrite list_lookup_insert_eq by done. intros [= <-]. simpl.
      repeat split; try done; eauto.
    + rewrite list_lookup_insert_ne by done. apply Hs.
  - intros w' tw' h'. destruct (decide (w' = w)) as [->|Hne].
    + rewrite list_lookup_insert_eq by done. intros [= <-]. simpl.
      intros [= <-]. by rewrite lookup_insert_eq.
    + rewrite list_lookup_insert_ne by done. intros Hw' Hi'.
      pose proof (Hl _ _ _ Hw' Hi') as Hh'.
      rewrite lookup_insert_ne; [done|]. intros <-. congruence.
  - intros h' w'. destruct (decide (h' = nextInterval v)) as [->|Hne].
    + rewrite lookup_insert_eq. intros [= <-].
      eexists. by rewrite list_lookup_insert_eq.
    + rewrite lookup_insert_ne by done. intros Hh'.
      destruct (Ho _ _ Hh') as (tw' & Hw' & Hi').
      exists tw'. split; [|done].
      rewrite list_lookup_insert_ne; [done|]. intros ->.
      assert (interval tw = None) by by apply (Hs _ _ Hw).
      congruence.
  - intros h' w'. destruct (decide (h' = nextInterval v)) as [->|Hne].
    + lia.
    + rewrite lookup_insert_ne by done. intros Hh'%Hn. lia.
Qed.

Lemma timers_ok_set_amount ws ivs next w text :
  timers_ok ws ivs next →
  timers_ok (alter (λ tw, match amountEl tw with
                          | Some _ => set_amountEl text tw
                          | None => tw
                          end) w ws) ivs next.
Proof.
  intros [Hs Hl Ho Hn].
  set (f := λ tw, match amountEl tw with
                  | Some _ => set_amountEl text tw
                  | None => tw
                  end).
  assert (Hf : ∀ tw, end_ (f tw) = end_ tw ∧ interval (f tw) = interval tw
                     ∧ running (f tw) = running tw).
  { intros tw. unfold f. by destruct (amountEl tw). }
  assert (Hcase : ∀ w' tw', alter f w ws !! w' = Some tw' →
            ∃ tw, ws !! w' = Some tw ∧ end_ tw' = end_ tw
                  ∧ interval tw' = interval tw ∧ running tw' = running tw).
  { intros w' tw'. destruct (decide (w' = w)) as [->|Hne].
    - rewrite list_lookup_alter_eq.
      destruct (ws !! w) as [tw|]; [|done]. simpl. intros [= <-].
      exists tw. split; [done|]. apply Hf.
    - rewrite list_lookup_alter_ne by done. intros H. by exists tw'. }
  split.
  - intros w' tw' (tw & Hw & -> & -> & ->)%Hcase. by eapply Hs.
  - intros w' tw' h (tw & Hw & _ & -> & _)%Hcase. by eapply Hl.
  - intros h w' (tw & Hw & Hi)%Ho.
    destruct (decide (w' = w)) as [->|Hne].
    + exists (f tw). rewrite list_lookup_alter_eq, Hw. split; [done|].
      by rewrite (proj1 (proj2 (Hf tw))).
    + exists tw. by rewrite list_lookup_alter_ne.
  - exact Hn.
Qed.

Lemma view_ok_updateTimer w total e name now v :
  view_ok v → view_ok (updateTimer w total e name now v).
Proof.
  intros Hok. unfold updateTimer.
  destruct (JS.round_div (e - now) 1000 <=? 0).
  - by apply (view_ok_stop w) in Hok.
  - by apply timers_ok_set_amount.
Qed.

Lemma view_ok_tick h now v : view_ok v → view_ok (tick h now v).
Proof.
  intros Hok. unfold tick.
  repeat case_match; try done. by apply view_ok_updateTimer.
Qed.

Lemma view_ok_renderPreview o v : view_ok v → view_ok (renderPreview o v).
Proof.
  intros Hok. unfold view_ok.
  destruct (renderPreview_widgets o v) as (new & -> & Hnew).
  destruct (renderPreview_frame o v) as (_&_&_&_&_&_& -> & -> &_).
  by apply timers_ok_extend.
Qed.

Lemma view_ok_switchTo mode v : view_ok v → view_ok (switchTo mode v).
Proof.
  intros Hok. destruct mode; [done|].
  unfold switchTo.
  set (u := set_changeModeLabel _ _).
  by apply (view_ok_renderPreview (recipe u) u).
Qed.

Section Reachable.

Variable parse : string → Recipe.t.

Lemma view_ok_setViewData text flag v :
  view_ok v → view_ok (setViewData parse text flag v).
Proof.
  intros Hok. unfold setViewData.
  set (u := set_recipe _ _).
  case_decide; [|by destruct flag].
  apply view_ok_renderPreview. by destruct flag.
Qed.

Lemma view_ok_step v e : view_ok v → view_ok (step parse v e).
Proof.
  intros Hok. destruct e; simpl; try done.
  - by apply view_ok_click.
  - by apply view_ok_tick.
  - by apply view_ok_setViewData.
  - destruct arg as [|mode|[|]]; simpl; try done; by apply view_ok_switchTo.
  - destruct mode; simpl; [by apply view_ok_switchTo | done].
Qed.

Lemma view_ok_run evs : ∀ v, view_ok v → view_ok (run parse v evs).
Proof.
  induction evs as [|e evs IH]; intros v Hok; simpl; [done|].
  apply IH. by apply view_ok_step.
Qed.

(** C8. Between two handler runs, in every state that a view reaches
    from its creation by clicks, ticks and calls of its methods, every
    timer has a deadline exactly when it has a tick handle: [end] is
    null exactly when [interval] is null.  Moreover the timer is then
    marked as running, and its handle is a live interval. *)
Theorem timer_state_invariant (st : CooklangSettings) (file : option TFile.t)
    (sibs : list TAbstractFile) (evs : list Event) (w : nat) (tw : TimerWidget) :
  let v := run parse (init st file sibs) evs in
  widgets v !! w = Some tw →
  (end_ tw = None ↔ interval tw = None)
  ∧ (Idle tw ↔ interval tw = None)
  ∧ (Running tw ↔ is_Some (interval tw))
  ∧ (Running tw ↔ running tw = true)
  ∧ (∀ h, interval tw = Some h → h ∈ liveSchedules v ∧ intervals v !! h = Some w).
Proof.
  intros v Hw.
  assert (Hok : view_ok v) by (apply view_ok_run, timers_ok_init).
  destruct Hok as [Hs Hl Ho Hn].
  destruct (Hs _ _ Hw) as [Hei Hr].
  unfold Idle, Running. repeat split; try tauto.
  - intros He. rewrite <- not_eq_None_Some. rewrite <- not_eq_None_Some in He. tauto.
  - intros He. rewrite <- not_eq_None_Some. rewrite <- not_eq_None_Some in He. tauto.
  - apply elem_of_dom. rewrite (Hl _ _ _ Hw H). eauto.
  - by apply (Hl _ _ _ Hw).
Qed.

End Reachable.

(** ** Cancelling, re-rendering, expiring *)

Section Lifecycle.

Variable parse : string → Recipe.t.

(** C1, amended.  A re-render of the preview, by [setViewData] or by
    [switchMode('preview')], cancels no tick schedule: the live
    intervals after it are those before it, and every timer made
    before it is as it was, a running one still running; the
    re-render only adds timers, all idle. *)
Theorem rerender_keeps_schedules (v : View) (text : string) (flag : bool) :
  (intervals (setViewData parse text flag v) = intervals v
   ∧ liveSchedules (setViewData parse text flag v) = liveSchedules v
   ∧ ∃ new, widgets (setViewData parse text flag v) = widgets v ++ new
            ∧ Forall fresh new)
  ∧ (intervals (switchMode (ArgMode preview) v) = intervals v
     ∧ liveSchedules (switchMode (ArgMode preview) v) = liveSchedules v
     ∧ ∃ new, widgets (switchMode (ArgMode preview) v) = widgets v ++ new
              ∧ Forall fresh new).
Proof.
  split.
  - assert (Hiv : intervals (setViewData parse text flag v) = intervals v).
    { unfold setViewData. set (u := set_recipe _ _).
      assert (Hu : intervals u = intervals v) by by destruct flag.
      case_decide; [|done].
      by destruct (renderPreview_frame (recipe u) u) as (_&_&_&_&_&_& -> &_). }
    split; [exact Hiv|]. split; [unfold liveSchedules; by rewrite Hiv|].
    unfold setViewData. set (u := set_recipe _ _).
    assert (Hu : widgets u = widgets v) by by destruct flag.
    case_decide.
    + destruct (renderPreview_widgets (recipe u) u) as (new & -> & Hnew).
      exists new. by rewrite Hu.
    + exists []. rewrite Hu, app_nil_r. split; [done|constructor].
  - destruct (switchTo_preview v) as (_ & _ & Hws & Hiv).
    change (switchMode (ArgMode preview) v) with (switchTo preview v).
    split; [exact Hiv|]. split; [unfold liveSchedules; by rewrite Hiv|].
    rewrite Hws.
    set (u := set_changeModeLabel _ _).
    destruct (renderPreview_widgets (recipe v) u) as (new & -> & Hnew).
    by exists new.
Qed.

(** C2, amended.  In a state that a view reaches from its creation,
    a click on the button of a running timer at once clears the
    timer's interval (no live interval runs its callback any more),
    takes the running mark off, stops the tick-sound player and leaves
    the timer idle, without deadline and without handle; a later click
    starts it again.  The alarm player is not touched, and nothing is
    notified. *)
Theorem toggle_cancels_running_timer (st : CooklangSettings)
    (file : option TFile.t) (sibs : list TAbstractFile) (evs : list Event)
    (w : nat) (tw : TimerWidget) (now later : Z) :
  let v := run parse (init st file sibs) evs in
  let v' := click w now v in
  widgets v !! w = Some tw → Running tw →
  (∃ h, interval tw = Some h ∧ h ∈ liveSchedules v
        ∧ intervals v' = delete h (intervals v))
  ∧ (∀ h, intervals v' !! h ≠ Some w)
  ∧ widgets v' !! w = Some (set_timer_state None None false tw)
  ∧ playing (timerAudio v') = O
  ∧ alarmAudio v' = alarmAudio v
  ∧ notifications v' = notifications v
  ∧ ∃ tw', widgets (click w later v') !! w = Some tw'
           ∧ end_ tw' = Some (later + seconds tw * 1000)
           ∧ is_Some (interval tw') ∧ running tw' = true.
Proof.
  intros v v' Hw Hrun.
  assert (Hok : view_ok v) by (apply view_ok_run, timers_ok_init).
  assert (Hok' : view_ok v') by by apply view_ok_click.
  assert (Hlt : (w < length (widgets v))%nat) by by eapply lookup_lt_Some.
  destruct Hok as [Hs Hl Ho Hn].
  destruct (Hs _ _ Hw) as [Hei Hr].
  destruct (interval tw) as [h|] eqn:Hi;
    [|destruct Hrun as [e He]; rewrite He in Hei; by destruct Hei as [_ ?%symmetry]].
  subst v'. rewrite (click_running w now v tw Hw Hrun) in *.
  destruct (stop_fields w v tw Hw) as (Hws & Hiv & Hnx & Hta & Haa & Hno & _).
  rewrite Hi in Hiv.
  assert (Hw' : widgets (stop w v) !! w = Some (set_timer_state None None false tw))
    by (rewrite Hws; by apply list_lookup_insert_eq).
  split; [|split; [|split; [|split; [|split; [|split]]]]].
  - exists h. split; [done|]. split; [|done].
    apply elem_of_dom. rewrite (Hl _ _ _ Hw Hi). eauto.
  - intros h' Hh'. destruct Hok' as [_ _ Ho' _].
    destruct (Ho' _ _ Hh') as (tw' & Htw' & Hi').
    rewrite Hw' in Htw'. by injection Htw' as <-.
  - exact Hw'.
  - by rewrite Hta.
  - exact Haa.
  - exact Hno.
  - destruct (click_idle_fields w later (stop w v) _ Hw' eq_refl) as (Hws2 & _).
    eexists. rewrite Hws2. rewrite list_lookup_insert_eq
      by (rewrite Hws, length_insert; done).
    split; [done|]. simpl. eauto.
Qed.

End Lifecycle.

(** C10. The timer of a step whose amount is absent is made with 0
    seconds and with the empty name if the name is absent too.  A click
    on it sets the deadline to the instant of the click; the first tick
    after that finds nothing remaining and ends the countdown: the
    interval is cleared, the timer is idle again, the alarm is played
    and the completion is notified. *)
Theorem absent_amount_expires_at_first_tick (t : Timer.t) (ws : list TimerWidget) :
  Timer.amount t = None →
  ∃ tw,
    renderPart (PTimer t) ws = (TimerSpan (length ws), ws ++ [tw])
    ∧ seconds tw = 0 ∧ name tw = default "" (Timer.name t)
    ∧ Idle tw ∧ interval tw = None ∧ amountEl tw = None
    ∧ ∀ (v : View) (w : nat) (clicked ticked : Z),
        widgets v !! w = Some tw → clicked ≤ ticked →
        let h := nextInterval v in
        let v1 := click w clicked v in
        let v2 := tick h ticked v1 in
        (∃ tw1, widgets v1 !! w = Some tw1 ∧ end_ tw1 = Some clicked
                ∧ interval tw1 = Some h)
        ∧ intervals v1 !! h = Some w
        ∧ JS.round_div (clicked - ticked) 1000 ≤ 0
        ∧ widgets v2 !! w = Some tw
        ∧ intervals v2 !! h = None
        ∧ playing (alarmAudio v2) = S (playing (alarmAudio v))
        ∧ notifications v2
          = notifications v
            ++ [{| title := "Timer Complete";
                   body := (if String.eqb (name tw) "" then "Timer" else name tw)
                           +:+ " for 0:00 is done!" |}].
Proof.
  intros Hamount.
  eexists. simpl. rewrite Hamount. simpl.
  split; [reflexivity|]. repeat (split; [reflexivity|]).
  set (tw := {| seconds := 0 |}).
  intros v w clicked ticked Hw Hle.
  set (h := nextInterval v). set (v1 := click w clicked v).
  set (v2 := tick h ticked v1).
  assert (Hlt : (w < length (widgets v))%nat) by by eapply lookup_lt_Some.
  destruct (click_idle_fields w clicked v tw Hw eq_refl)
    as (Hws & Hiv & Hnx & Hta & Haa & Hno).
  fold h v1 in Hws, Hiv, Hnx, Hta, Haa, Hno.
  change (clicked + seconds tw * 1000) with (clicked + 0) in Hws.
  rewrite Z.add_0_r in Hws.
  set (tw1 := set_timer_state (Some clicked) (Some h) true tw) in *.
  assert (Hw1 : widgets v1 !! w = Some tw1)
    by (rewrite Hws; by apply list_lookup_insert_eq).
  assert (Hh1 : intervals v1 !! h = Some w) by (rewrite Hiv; apply lookup_insert_eq).
  assert (Hrem : JS.round_div (clicked - ticked) 1000 ≤ 0).
  { unfold JS.round_div. change (1000 `div` 2) with 500.
    assert (clicked - ticked + 500 < 1 * 1000) by lia.
    assert ((clicked - ticked + 500) `div` 1000 < 1)
      by (apply Z.div_lt_upper_bound; lia).
    lia. }
  split; [by exists tw1|]. split; [exact Hh1|]. split; [exact Hrem|].
  assert (Hv2 : v2 = notify "Timer Complete"
            ((if String.eqb (name tw) "" then "Timer" else name tw)
             +:+ " for " +:+ formatTimeForTimer 0 +:+ " is done!")
            (set_alarmAudio (Howl_play (alarmAudio (stop w v1))) (stop w v1))).
  { subst v2. unfold tick. rewrite Hh1, Hw1. simpl. unfold updateTimer.
    apply Z.leb_le in Hrem. by rewrite Hrem. }
  destruct (stop_fields w v1 tw1 Hw1) as (Hws2 & Hiv2 & _ & _ & Haa2 & Hno2 & _).
  rewrite Hv2. simpl. rewrite Hws2, Hiv2, Haa2, Hno2, Haa, Hno. simpl.
  split; [|split; [|split]]; try reflexivity.
  - rewrite Hws, list_insert_insert_eq.
    rewrite list_lookup_insert_eq by done. reflexivity.
  - apply lookup_delete_eq.
Qed.

(** ** A sample recipe and runs of the view on it *)

Definition eggs : Timer.t :=
  {| Timer.name := Some "eggs"; Timer.amount := Some 180;
     Timer.units := Some "seconds" |}.

Definition rest : Timer.t :=
  {| Timer.name := None; Timer.amount := None; Timer.units := None |}.

Definition boiledEggs : Recipe.t :=
  {| Recipe.ingredients :=
       [{| Ingredient.name := Some "eggs"; Ingredient.amount := Some 2;
           Ingredient.units := None |}];
     Recipe.cookware := [{| Cookware.name := Some "pot"; Cookware.amount := None |}];
     Recipe.timers := [eggs; rest];
     Recipe.steps :=
       [{| Step.text := Some [PString "Boil the eggs for "; PTimer eggs; PString "."];
           Step.line := None; Step.image := None |};
        {| Step.text := Some [PString "Let them rest "; PTimer rest; PString "."];
           Step.line := None; Step.image := None |}];
     Recipe.image := None |}.

(** A stand-in for the parser: the empty text is the empty recipe, any
    other text is the sample recipe. *)
Definition sampleParse (text : string) : Recipe.t :=
  if String.eqb text "" then emptyRecipe else boiledEggs.

(** The sample recipe loaded and shown in preview mode: timer 0 is the
    egg timer (180 seconds), timer 1 the one without amount. *)
Definition opened : View :=
  run sampleParse (init allShown None [])
    [EvSetViewData "eggs" true; EvSwitchMode (ArgMode preview)].

(** The egg timer after a click at time 1000. *)
Definition runningEggs : TimerWidget :=
  {| seconds := 180; name := "eggs"; end_ := Some 181000; interval := Some 1%nat;
     running := true; amountEl := Some "3m"; nameEl := Some "eggs" |}.

Definition eggsStarted : list Event :=
  [EvSetViewData "eggs" true; EvSwitchMode (ArgMode preview); EvClick 0 1000].

(** C1, as stated, fails.  The sample recipe is shown, its egg timer is
    started and the text is set again (or preview mode is entered
    again): the interval of the first rendering's timer is still live,
    although the method list now holds the buttons of new timers; when
    the old deadline comes, the callback of the discarded timer runs,
    plays the alarm and notifies. *)
Lemma rerender_leaves_schedule_live :
  let v := run sampleParse (init allShown None []) eggsStarted in
  let v' := setViewData sampleParse "eggs" true v in
  let v'' := switchMode (ArgMode preview) v in
  currentView v = preview
  ∧ widgets v !! 0%nat = Some runningEggs ∧ Running runningEggs
  ∧ intervals v' !! 1%nat = Some 0%nat
  ∧ size (liveSchedules v') = 1%nat
  ∧ size (liveSchedules v'') = 1%nat
  ∧ liveSchedules v' ≠ ∅
  ∧ methodItems v'
    = [El "li" [] [El "div" ["step-text"]
                     [Text "Boil the eggs for "; TimerSpan 2; Text "."]];
       El "li" [] [El "div" ["step-text"]
                     [Text "Let them rest "; TimerSpan 3; Text "."]]]
  ∧ notifications (tick 1 181000 v')
    = [{| title := "Timer Complete"; body := "eggs for 3:00 is done!" |}]
  ∧ playing (alarmAudio (tick 1 181000 v')) = 1%nat.
Proof.
  repeat split; try (vm_compute; reflexivity).
  - by exists 181000.
  - intros H. apply (f_equal size) in H. vm_compute in H. discriminate.
Qed.

(** C2, as stated, fails.  The timer without amount is started and ends
    at its first tick, which plays the alarm; the egg timer is started
    and then cancelled by a second click: the alarm is still playing
    after the cancellation. *)
Lemma cancel_leaves_alarm_playing :
  let v := run sampleParse opened [EvClick 1 1000; EvTick 1 1100; EvClick 0 1200] in
  let v' := click 0 1500 v in
  (∃ tw, widgets v !! 0%nat = Some tw ∧ Running tw)
  ∧ playing (alarmAudio v) = 1%nat
  ∧ (∃ tw', widgets v' !! 0%nat = Some tw' ∧ Idle tw')
  ∧ liveSchedules v' = ∅
  ∧ playing (alarmAudio v') = 1%nat.
Proof.
  split; [|split; [|split; [|split]]]; try (vm_compute; reflexivity).
  - eexists. split; [vm_compute; reflexivity|]. by eexists.
  - eexists. split; [vm_compute; reflexivity|]. reflexivity.
Qed.

Lemma setViewData_flag_irrelevant_witness :
  setViewData sampleParse "eggs" true opened = setViewData sampleParse "eggs" false opened
  ∧ recipe (setViewData sampleParse "eggs" true opened) = Some boiledEggs.
Proof.
  destruct (setViewData_flag_irrelevant sampleParse opened "eggs" true)
    as (Heq & _ & _ & _ & _ & _ & Hpre).
  split; [exact Heq|]. apply Hpre. reflexivity.
Defined.

Lemma timer_state_invariant_witness :
  Running runningEggs ∧ is_Some (interval runningEggs)
  ∧ 1%nat ∈ liveSchedules (run sampleParse (init allShown None []) eggsStarted).
Proof.
  destruct (timer_state_invariant sampleParse allShown None [] eggsStarted
              0%nat runningEggs eq_refl) as (_ & _ & Hrun & Hmark & Hlive).
  assert (Hr : Running runningEggs) by (apply Hmark; reflexivity).
  split; [exact Hr|]. split; [by apply Hrun|].
  apply (Hlive 1%nat). reflexivity.
Defined.

Lemma toggle_cancels_running_timer_witness :
  let v := run sampleParse (init allShown None []) eggsStarted in
  (∀ h, intervals (click 0 2000 v) !! h ≠ Some 0%nat)
  ∧ playing (timerAudio (click 0 2000 v)) = O.
Proof.
  intros v.
  destruct (toggle_cancels_running_timer sampleParse allShown None [] eggsStarted
              0%nat runningEggs 2000 3000 eq_refl (ex_intro _ 181000 eq_refl))
    as (_ & Hnone & _ & Hsound & _).
  split; [exact Hnone | exact Hsound].
Defined.

Lemma absent_amount_expires_at_first_tick_witness :
  notifications (tick 1 5100 (click 1 5000 opened))
  = [{| title := "Timer Complete"; body := "Timer for 0:00 is done!" |}].
Proof.
  destruct (absent_amount_expires_at_first_tick rest [] eq_refl)
    as (tw & Hmade & _ & _ & _ & _ & _ & Hrun).
  injection Hmade as <-.
  destruct (Hrun opened 1%nat 5000 5100 eq_refl ltac:(lia))
    as (_ & _ & _ & _ & _ & _ & Hnote).
  exact Hnote.
Defined.

(** * Further properties *)

(** ** Strings: splitting and reading numbers *)

Lemma split_length c s : length (JS.split c s) = S (occurrences c s).
Proof.
  induction s as [|a s IH]; simpl; [done|].
  destruct (Ascii.eqb a c); simpl; [by rewrite IH|].
  destruct (JS.split c s); simpl in *; [done|lia].
Qed.

Lemma split_without c s : occurrences c s = O → JS.split c s = [s].
Proof.
  induction s as [|a s IH]; simpl; [done|].
  destruct (Ascii.eqb a c); [done|]. simpl. intros H. by rewrite IH.
Qed.

Lemma split_app c a b :
  occurrences c a = O →
  JS.split c (a +:+ String.String c b) = a :: JS.split c b.
Proof.
  induction a as [|x a IH]; simpl.
  - intros _. by rewrite Ascii.eqb_refl.
  - destruct (Ascii.eqb x c); [done|]. simpl. intros H. by rewrite IH.
Qed.

Lemma occurrences_app c a b :
  occurrences c (a +:+ b) = (occurrences c a + occurrences c b)%nat.
Proof. induction a as [|x a IH]; simpl; [done|]. rewrite IH. lia. Qed.


Lemma prefix_inv p s : String.prefix p s = true → ∃ rest, s = p +:+ rest.
Proof.
  revert s. induction p as [|a p IH]; intros s; simpl.
  - intros _. by exists s.
  - destruct s as [|b s]; simpl; [done|].
    destruct (ascii_dec a b) as [->|]; [|discriminate].
    intros [rest ->]%IH. by exists rest.
Qed.


(** A decimal digit. *)
Definition isDigit (a : ascii) : bool :=
  let n := nat_of_ascii a in ((48 <=? n) && (n <=? 57))%nat.

Fixpoint allDigits (s : string) : bool :=
  match s with
  | EmptyString => true
  | String.String a s' => isDigit a && allDigits s'
  end.

Lemma pretty_N_char_digit x :
  (x < 10)%N →
  isDigit (pretty_N_char x) = true
  ∧ JS.digit_val (pretty_N_char x) = Some (Z.of_N x).
Proof.
  intros Hx. rewrite <- (N2Nat.id x).
  assert (Hn : (N.to_nat x < 10)%nat) by lia.
  revert Hn. generalize (N.to_nat x). clear. intros n Hn.
  do 10 (destruct n as [|n]; [by split|]). lia.
Qed.

Lemma pretty_N_go_digits x :
  ∀ s, allDigits s = true → allDigits (pretty_N_go x s) = true.
Proof.
  induction (N.lt_wf_0 x) as [x _ IH]; intros s Hs.
  assert (x = 0 ∨ 0 < x)%N as [->|Hpos] by lia.
  - by rewrite pretty_N_go_0.
  - rewrite pretty_N_go_step by done. apply IH.
    + by apply N.div_lt.
    + simpl. rewrite Hs, andb_true_r.
      apply pretty_N_char_digit, N.mod_lt. lia.
Qed.


Lemma allDigits_app a b :
  allDigits (a +:+ b) = allDigits a && allDigits b.
Proof.
  induction a as [|x a IH]; simpl; [done|]. by rewrite IH, andb_assoc.
Qed.

Lemma allDigits_occurrences c s :
  isDigit c = false → allDigits s = true → occurrences c s = O.
Proof.
  intros Hc. induction s as [|a s IH]; simpl; [done|].
  intros [Ha Hs]%andb_true_iff.
  destruct (Ascii.eqb_spec a c) as [->|_]; [congruence|]. by rewrite IH.
Qed.

Lemma pretty_nat_digits (n : nat) :
  allDigits (JS.String (Z.of_nat n)) = true
  ∧ JS.String (Z.of_nat n) ≠ "".
Proof.
  unfold JS.String, pretty, pretty_Z.
  destruct (Z.of_nat n) as [|p|p] eqn:E; [done| |lia].
  unfold pretty, pretty_positive, pretty, pretty_N.
  destruct (decide (N.pos p = 0%N)); [done|].
  split; [by apply pretty_N_go_digits|].
  rewrite pretty_N_go_step by lia.
  intros H. apply (f_equal String.length) in H.
  assert (Hlen : ∀ x s, (String.length s ≤ String.length (pretty_N_go x s))%nat).
  { intros x. induction (N.lt_wf_0 x) as [x _ IH]; intros s.
    assert (x = 0 ∨ 0 < x)%N as [->|?] by lia; [by rewrite pretty_N_go_0|].
    rewrite pretty_N_go_step by done.
    etrans; [|by eapply IH, N.div_lt]. simpl. lia. }
  specialize (Hlen (N.pos p `div` 10)%N
                (String.String (pretty_N_char (N.pos p `mod` 10)) "")).
  simpl in *. lia.
Qed.



(** ** Image binding, sibling by sibling *)

Lemma otherFiles_elem me sibs f :
  f ∈ otherFiles (Some me) sibs →
  (TFile.basename f = TFile.basename me
   ∨ ∃ rest, TFile.basename f = (TFile.basename me +:+ ".") +:+ rest)
  ∧ TFile.name f ≠ TFile.name me.
Proof.
  unfold otherFiles. intros ([g|?] & _ & Hg)%list_elem_of_omap; [|done].
  destruct ((_ || _) && _) eqn:E; [|done]. injection Hg as ->.
  apply andb_true_iff in E as [[H|H]%orb_true_iff Hn%negb_true_iff].
  - split; [left; by apply String.eqb_eq | by apply String.eqb_neq].
  - split; [right; by apply prefix_inv | by apply String.eqb_neq].
Qed.

Lemma bindFile_frame me r f :
  Recipe.ingredients (bindFile me r f) = Recipe.ingredients r
  ∧ Recipe.cookware (bindFile me r f) = Recipe.cookware r
  ∧ Recipe.timers (bindFile me r f) = Recipe.timers r
  ∧ Step.text <$> Recipe.steps (bindFile me r f) = Step.text <$> Recipe.steps r
  ∧ Step.line <$> Recipe.steps (bindFile me r f) = Step.line <$> Recipe.steps r.
Proof.
  unfold bindFile.
  destruct (isImageExtension _); [|done].
  destruct (String.eqb _ _); [done|].
  destruct (stepIndex _ _) as [s|]; [|done]. simpl.
  repeat split; apply list_eq; intros i; rewrite !list_lookup_fmap;
    (destruct (decide (i = s)) as [->|];
     [rewrite list_lookup_alter_eq | by rewrite list_lookup_alter_ne]);
    by destruct (Recipe.steps r !! s).
Qed.

Lemma foldl_bindFile_frame me fs :
  ∀ r,
    Recipe.ingredients (foldl (bindFile me) r fs) = Recipe.ingredients r
    ∧ Recipe.cookware (foldl (bindFile me) r fs) = Recipe.cookware r
    ∧ Recipe.timers (foldl (bindFile me) r fs) = Recipe.timers r
    ∧ Step.text <$> Recipe.steps (foldl (bindFile me) r fs) = Step.text <$> Recipe.steps r
    ∧ Step.line <$> Recipe.steps (foldl (bindFile me) r fs) = Step.line <$> Recipe.steps r.
Proof.
  induction fs as [|f fs IH]; intros r; simpl; [done|].
  destruct (IH (bindFile me r f)) as (-> & -> & -> & -> & ->).
  apply bindFile_frame.
Qed.

Lemma foldl_bindFile_length me fs r :
  length (Recipe.steps (foldl (bindFile me) r fs)) = length (Recipe.steps r).
Proof.
  destruct (foldl_bindFile_frame me fs r) as (_ & _ & _ & H & _).
  apply (f_equal length) in H. by rewrite !length_fmap in H.
Qed.

(** The main image after one more sibling. *)
Lemma bindFile_image me r f :
  Recipe.image (bindFile me r f)
  = if isMainImage me f then Some f else Recipe.image r.
Proof.
  unfold bindFile, isMainImage.
  destruct (isImageExtension _); [|done].
  destruct (String.eqb _ _); [done|]. simpl.
  by destruct (stepIndex _ _).
Qed.

(** The image of a step after one more sibling. *)
Lemma bindFile_step_image me r f i :
  (Recipe.steps (bindFile me r f) !! i) ≫= Step.image
  = if isStepImage me (length (Recipe.steps r)) i f
    then (λ _, f) <$> Recipe.steps r !! i
    else (Recipe.steps r !! i) ≫= Step.image.
Proof.
  unfold bindFile, isStepImage.
  destruct (isImageExtension _); [|done].
  destruct (String.eqb _ _); [done|]. simpl.
  destruct (stepIndex _ _) as [s|]; [|done]. simpl.
  case_bool_decide as Hs.
  - injection Hs as ->. rewrite list_lookup_alter_eq.
    by destruct (Recipe.steps r !! i).
  - rewrite list_lookup_alter_ne; [done|]. intros ->. done.
Qed.

Lemma foldl_bindFile_image me fs :
  ∀ r, Recipe.image (foldl (bindFile me) r fs)
       = match last (filter (isMainImage me) fs) with
         | Some f => Some f
         | None => Recipe.image r
         end.
Proof.
  induction fs as [|f fs IH] using rev_ind; intros r; [done|].
  rewrite foldl_snoc, bindFile_image, filter_app, IH.
  rewrite filter_cons, filter_nil.
  destruct (isMainImage me f) eqn:E.
  - rewrite decide_True by done. by rewrite last_snoc.
  - rewrite decide_False by (by intros []). by rewrite app_nil_r.
Qed.

Lemma foldl_bindFile_step_image me fs :
  ∀ r i,
    (Recipe.steps (foldl (bindFile me) r fs) !! i) ≫= Step.image
    = match last (filter (isStepImage me (length (Recipe.steps r)) i) fs) with
      | Some f => (λ _, f) <$> Recipe.steps r !! i
      | None => (Recipe.steps r !! i) ≫= Step.image
      end.
Proof.
  induction fs as [|f fs IH] using rev_ind; intros r i; [done|].
  rewrite foldl_snoc, bindFile_step_image, foldl_bindFile_length, filter_app, IH.
  rewrite filter_cons, filter_nil.
  destruct (isStepImage me (length (Recipe.steps r)) i f) eqn:E.
  - rewrite decide_True by done. rewrite last_snoc.
    assert (Hlen := foldl_bindFile_length me fs r).
    destruct (Recipe.steps r !! i) as [st|] eqn:Hi.
    + destruct (lookup_lt_is_Some_2 (Recipe.steps (foldl (bindFile me) r fs)) i)
        as [st' ->]; [|done].
      rewrite Hlen. by eapply lookup_lt_Some.
    + rewrite (lookup_ge_None_2 (Recipe.steps (foldl (bindFile me) r fs)) i); [done|].
      rewrite Hlen. by apply lookup_ge_None.
  - rewrite decide_False by (by intros []). by rewrite app_nil_r.
Qed.



Lemma binding_changes_stepText file sibs r :
  stepText <$> Recipe.steps (bindImages file sibs r) = stepText <$> Recipe.steps r.
Proof.
  unfold bindImages. destruct file as [me|]; [|done].
  destruct (foldl_bindFile_frame me (otherFiles (Some me) sibs) r)
    as (_ & _ & _ & Htext & Hline).
  apply list_eq. intros i. rewrite !list_lookup_fmap.
  apply (f_equal (.!! i)) in Htext, Hline.
  rewrite !list_lookup_fmap in Htext, Hline.
  unfold stepText.
  destruct (Recipe.steps (foldl _ _ _) !! i) as [a|],
    (Recipe.steps r !! i) as [b|]; simpl in *; try done.
  injection Htext as ->. by injection Hline as ->.
Qed.

(** X1. Binding images changes nothing of a recipe but images: the
    ingredients, the cookware, the timers (so the total time), the number
    of steps and the text of every step are those of the parsed recipe. *)
Theorem binding_changes_images_only (file : option TFile.t)
    (sibs : list TAbstractFile) (r : Recipe.t) :
  let r' := bindImages file sibs r in
  Recipe.ingredients r' = Recipe.ingredients r
  ∧ Recipe.cookware r' = Recipe.cookware r
  ∧ Recipe.timers r' = Recipe.timers r
  ∧ Recipe.calculateTotalTime r' = Recipe.calculateTotalTime r
  ∧ length (Recipe.steps r') = length (Recipe.steps r)
  ∧ stepText <$> Recipe.steps r' = stepText <$> Recipe.steps r.
Proof.
  intros r'. subst r'. unfold bindImages.
  destruct file as [me|]; [|done].
  destruct (foldl_bindFile_frame me (otherFiles (Some me) sibs) r)
    as (Hi & Hc & Ht & Htext & Hline).
  split; [done|]. split; [done|]. split; [done|].
  split; [unfold Recipe.calculateTotalTime; by rewrite Ht|].
  split; [apply foldl_bindFile_length|].
  exact (binding_changes_stepText (Some me) sibs r).
Qed.





(** X4. For a document whose base name contains a dot, no sibling is
    ever bound as the image of a step: whatever the folder holds, the
    images of the steps are as they were. *)
Theorem dotted_document_binds_no_step (me : TFile.t)
    (sibs : list TAbstractFile) (r : Recipe.t) :
  occurrences "." (TFile.basename me) ≠ O →
  Step.image <$> Recipe.steps (bindImages (Some me) sibs r)
  = Step.image <$> Recipe.steps r.
Proof.
  intros Hdot. unfold bindImages.
  assert (Hall : Forall (λ f, ∀ n, stepIndex f n = None
                              ∨ TFile.basename f = TFile.basename me)
                   (otherFiles (Some me) sibs)).
  { apply Forall_forall. intros f [[Heq|[rest Hrest]] _]%otherFiles_elem n;
      [by right|left].
    unfold stepIndex. rewrite split_length, Hrest, !occurrences_app. simpl.
    rewrite bool_decide_eq_false_2; [done|]. lia. }
  revert r. induction Hall as [|f fs Hf _ IH]; intros r; simpl; [done|].
  rewrite IH. unfold bindFile.
  destruct (isImageExtension _); [|done].
  destruct (String.eqb_spec (TFile.basename f) (TFile.basename me)) as [|Hne];
    [done|].
  destruct (Hf (length (Recipe.steps r))) as [-> | ?]; done.
Qed.

Lemma dotted_document_binds_no_step_witness :
  Step.image <$> Recipe.steps
    (bindImages (Some (TFile.make "a.b" "cook"))
       [AFile (TFile.make "a.b.0" "png"); AFile (TFile.make "a.b.1" "gif")]
       twoSteps)
  = [None; None].
Proof.
  rewrite dotted_document_binds_no_step; [reflexivity | discriminate].
Defined.

(** ** What a rendering shows *)

Lemma renderPreview_items (v : View) (r : Recipe.t) :
  methodItems (renderPreview (Some r) v)
  = (renderSteps (showImages (settings v)) (Recipe.steps (boundRecipe v r))
       (widgets v)).1.
Proof.
  destruct (renderPreview_sections v r) as (items & ws & -> & _ & _ & Hel).
  unfold methodItems. rewrite Hel. simpl.
  destruct (showImages (settings v)), (Recipe.image (boundRecipe v r)),
    (showIngredientList (settings v)), (showCookwareList (settings v)),
    (showTimersList (settings v)),
    (showTotalTime (settings v) && (0 <? Recipe.calculateTotalTime r));
    reflexivity.
Qed.

Lemma renderPreview_shows_main_image (v : View) (r : Recipe.t) :
  shows "main-image" (renderPreview (Some r) v)
  = showImages (settings v)
    && bool_decide (is_Some (Recipe.image (boundRecipe v r))).
Proof.
  unfold shows.
  destruct (renderPreview_sections v r) as (items & ws & _ & _ & _ & ->).
  generalize (boundRecipe v r). intros r'.
  destruct (showImages (settings v)), (Recipe.image r'),
    (showIngredientList (settings v)), (showCookwareList (settings v)),
    (showTimersList (settings v)),
    (showTotalTime (settings v) && (0 <? Recipe.calculateTotalTime r));
    reflexivity.
Qed.

Lemma renderPreview_shows_step_image (v : View) (r : Recipe.t) (i : nat) :
  showsStepImage i (renderPreview (Some r) v)
  = showImages (settings v)
    && bool_decide (is_Some (Recipe.steps (boundRecipe v r) !! i ≫= Step.image)).
Proof.
  unfold showsStepImage. rewrite renderPreview_items.
  destruct (renderSteps _ _ _) as [items ws] eqn:E.
  exact (renderSteps_image _ _ _ _ _ i E).
Qed.

(** Binding never takes an image away. *)
Lemma bindImages_keeps_images file sibs r :
  (is_Some (Recipe.image r) → is_Some (Recipe.image (bindImages file sibs r)))
  ∧ ∀ i, is_Some (Recipe.steps r !! i ≫= Step.image) →
         is_Some (Recipe.steps (bindImages file sibs r) !! i ≫= Step.image).
Proof.
  unfold bindImages. destruct file as [me|]; [|done]. split.
  - rewrite foldl_bindFile_image. intros ?. by case_match.
  - intros i Hi. rewrite foldl_bindFile_step_image.
    case_match; [|done].
    destruct (Recipe.steps r !! i); [by eexists|by destruct Hi].
Qed.

(** X5. An image outlives its file.  If the preview shows a main image
    (or the image of a step) and the view goes to source mode and back to
    preview, it still shows one, whatever has become of the folder in
    between: the binding was written into the recipe, which is rendered
    again as it is unless the text is parsed again. *)
Theorem image_outlives_its_file (v : View) (file' : option TFile.t)
    (sibs' : list TAbstractFile) (i : nat) :
  let back :=
    switchTo preview
      (set_siblings sibs' (set_file file' (switchTo source (switchTo preview v)))) in
  (shows "main-image" (switchTo preview v) = true →
   shows "main-image" back = true)
  ∧ (showsStepImage i (switchTo preview v) = true →
     showsStepImage i back = true).
Proof.
  intros back.
  set (v1 := set_siblings sibs' (set_file file' (switchTo source (switchTo preview v)))) in *.
  set (enter := λ x, set_changeModeLabel "Edit (Ctrl+Click to edit in new pane)"
                       (set_changeModeIcon "pencil" (set_currentView preview x))).
  destruct (switchTo_preview v) as (Hel & Hrec & _).
  destruct (switchTo_preview v1) as (Hel1 & Hrec1 & _).
  change (set_changeModeLabel _ (set_changeModeIcon _ (set_currentView _ v)))
    with (enter v) in *.
  change (set_changeModeLabel _ (set_changeModeIcon _ (set_currentView _ v1)))
    with (enter v1) in *.
  set (u := enter v) in *. set (u1 := enter v1) in *.
  assert (Hr1 : recipe v1 = recipe (renderPreview (recipe v) u)) by exact Hrec.
  assert (Hset : settings u1 = settings u)
    by exact (proj1 (renderPreview_frame (recipe v) u)).
  unfold shows, showsStepImage, methodItems, back.
  rewrite Hel, Hel1, Hr1.
  fold (shows "main-image" (renderPreview (recipe v) u)).
  fold (methodItems (renderPreview (recipe v) u)).
  fold (showsStepImage i (renderPreview (recipe v) u)).
  destruct (recipe v) as [r|]; [|by split].
  destruct (renderPreview_sections u r) as (_ & _ & _ & -> & _).
  fold (shows "main-image" (renderPreview (Some (boundRecipe u r)) u1)).
  fold (methodItems (renderPreview (Some (boundRecipe u r)) u1)).
  fold (showsStepImage i (renderPreview (Some (boundRecipe u r)) u1)).
  rewrite !renderPreview_shows_main_image, !renderPreview_shows_step_image, Hset.
  destruct (showImages (settings u)) eqn:Hsh; [|done]. simpl.
  assert (Hb : boundRecipe u1 (boundRecipe u r)
               = bindImages (file u1) (siblings u1) (boundRecipe u r))
    by (unfold boundRecipe at 1; by rewrite Hset, Hsh).
  rewrite Hb.
  destruct (bindImages_keeps_images (file u1) (siblings u1) (boundRecipe u r))
    as [Hmain Hstep].
  split; intros H%bool_decide_eq_true; apply bool_decide_eq_true; auto.
Qed.

Lemma image_outlives_its_file_witness :
  let doc := TFile.make "recipe" "cook" in
  let jpg := TFile.make "recipe" "jpg" in
  let v := set_recipe (Some twoSteps) (init allShown (Some doc) [AFile doc; AFile jpg]) in
  shows "main-image"
    (switchTo preview
       (set_siblings [] (set_file None (switchTo source (switchTo preview v)))))
  = true.
Proof.
  intros doc jpg v.
  destruct (image_outlives_its_file v None [] 0) as [H _].
  apply H. reflexivity.
Defined.

(** ** The buttons of a rendering *)

Lemma renderPart_refs part ws :
  let k := if isTimerPart part then 1%nat else 0%nat in
  timerRefs (renderPart part ws).1 = seq (length ws) k
  ∧ length (renderPart part ws).2 = (length ws + k)%nat.
Proof.
  destruct part as [s|ing|c|t|]; simpl;
    try (split; [reflexivity|lia]).
  - split; [|lia].
    destruct (Ingredient.amount ing), (Ingredient.units ing); reflexivity.
  - split; [|lia]. destruct (Cookware.amount c); reflexivity.
  - split; [reflexivity|]. rewrite length_app. simpl. lia.
Qed.

Lemma renderParts_refs parts :
  ∀ ws,
    let k := length (filter isTimerPart parts) in
    flat_map timerRefs (renderParts parts ws).1 = seq (length ws) k
    ∧ length (renderParts parts ws).2 = (length ws + k)%nat.
Proof.
  induction parts as [|part parts IH]; intros ws; simpl.
  - split; [reflexivity|lia].
  - destruct (renderPart_refs part ws) as [H1 L1].
    destruct (renderPart part ws) as [n ws1]. simpl in H1, L1.
    destruct (IH ws1) as [H2 L2].
    destruct (renderParts parts ws1) as [ns ws2]. simpl in H2, L2 |- *.
    rewrite filter_cons.
    rewrite H1, H2, L2, L1.
    destruct (isTimerPart part); simpl.
    + split; [|lia]. f_equal. f_equal. lia.
    + split; [|lia]. f_equal. lia.
Qed.

Lemma renderSteps_refs showI steps :
  ∀ ws,
    flat_map timerRefs (renderSteps showI steps ws).1
    = seq (length ws) (inlineTimers steps)
    ∧ length (renderSteps showI steps ws).2
      = (length ws + inlineTimers steps)%nat.
Proof.
  induction steps as [|step steps IH]; intros ws; simpl.
  - split; [reflexivity|lia].
  - unfold renderStep.
    destruct (renderParts_refs (stepText step) ws) as [H1 L1].
    destruct (renderParts (stepText step) ws) as [ns ws1]. simpl in H1, L1.
    destruct (IH ws1) as [H2 L2].
    destruct (renderSteps showI steps ws1) as [items ws2]. simpl in H2, L2 |- *.
    rewrite H2, L2, L1.
    assert (Himg : flat_map timerRefs
              (match Step.image step with
               | Some f => if showI then [Img "step-image" f] else []
               | None => []
               end ++ [El "div" ["step-text"] ns]) = flat_map timerRefs ns).
    { destruct (Step.image step), showI; simpl; by rewrite app_nil_r. }
    rewrite Himg, H1. split; [|lia].
    by rewrite seq_app.
Qed.

Lemma inlineTimers_ext a :
  ∀ b, stepText <$> a = stepText <$> b → inlineTimers a = inlineTimers b.
Proof.
  induction a as [|x a IH]; intros [|y b]; simpl; try done.
  intros [= Hxy Hab]. rewrite Hxy. f_equal. by apply IH.
Qed.

Lemma flat_map_no_refs {A} (f : A → Node) (l : list A) :
  (∀ x, timerRefs (f x) = []) → flat_map timerRefs (f <$> l) = [].
Proof.
  intros Hf. induction l as [|x l IH]; [done|].
  rewrite fmap_cons. cbn [flat_map]. by rewrite Hf, IH.
Qed.

(** X6. A rendering makes one timer for each timer reference in the
    texts of the steps (none for the aggregate list of timers), and the
    buttons of the new preview are bound to exactly these new timers, in
    order: every button shown is bound to an idle timer, and no button
    is bound to a timer made by an earlier rendering. *)
Theorem preview_buttons_are_new_timers (v : View) (r : Recipe.t) :
  let v' := renderPreview (Some r) v in
  let k := inlineTimers (Recipe.steps r) in
  length (widgets v') = (length (widgets v) + k)%nat
  ∧ previewTimers v' = seq (length (widgets v)) k
  ∧ ∀ w, w ∈ previewTimers v' →
         (length (widgets v) ≤ w)%nat
         ∧ ∃ tw, widgets v' !! w = Some tw ∧ fresh tw.
Proof.
  intros v' k.
  destruct (renderPreview_sections v r) as (items & ws & Hsteps & _ & Hws & Hel).
  destruct (renderSteps_refs (showImages (settings v))
              (Recipe.steps (boundRecipe v r)) (widgets v)) as [Hrefs Hlen].
  rewrite Hsteps in Hrefs, Hlen. simpl in Hrefs, Hlen.
  assert (Hk : inlineTimers (Recipe.steps (boundRecipe v r)) = k).
  { apply inlineTimers_ext. unfold boundRecipe.
    destruct (showImages (settings v)); [|done].
    apply binding_changes_stepText. }
  rewrite Hk in Hrefs, Hlen.
  assert (Hprev : previewTimers v' = seq (length (widgets v)) k).
  { unfold previewTimers, v'. rewrite Hel, !flat_map_app. simpl.
    rewrite app_nil_r, Hrefs.
    destruct (showImages (settings v)), (Recipe.image (boundRecipe v r)),
      (showIngredientList (settings v)), (showCookwareList (settings v)),
      (showTimersList (settings v)),
      (showTotalTime (settings v) && (0 <? Recipe.calculateTotalTime r));
      simpl; rewrite ?app_nil_r;
      rewrite ?(flat_map_no_refs renderIngredient), ?(flat_map_no_refs renderCookware),
        ?(flat_map_no_refs renderTimer); try done;
      intros x; unfold renderIngredient, renderCookware, renderTimer, fragment;
      simpl; repeat case_match; reflexivity. }
  split; [unfold v'; by rewrite Hws|]. split; [exact Hprev|].
  intros w Hw. rewrite Hprev in Hw. apply elem_of_seq in Hw as [Hlo Hhi].
  split; [done|].
  destruct (renderPreview_widgets (Some r) v) as (new & Hnew & Hfresh).
  rewrite Hws in Hnew.
  assert (Hl : length new = k).
  { apply (f_equal length) in Hnew. rewrite length_app in Hnew. lia. }
  destruct (lookup_lt_is_Some_2 new (w - length (widgets v))) as [tw Htw]; [lia|].
  exists tw. split; [|by eapply Forall_lookup_1].
  unfold v'. rewrite Hws, Hnew. rewrite lookup_app_r by done. exact Htw.
Qed.

Lemma preview_buttons_are_new_timers_witness :
  let v := run sampleParse (init allShown None []) eggsStarted in
  (length (widgets v) ≤ 2)%nat
  ∧ ∃ tw, widgets (renderPreview (Some boiledEggs) v) !! 2%nat = Some tw ∧ fresh tw.
Proof.
  intros v.
  destruct (preview_buttons_are_new_timers v boiledEggs) as (_ & _ & H).
  apply (H 2%nat). vm_compute. apply list_elem_of_here.
Defined.

(** ** Ticks *)

Lemma round_div_1000 (d : Z) :
  (JS.round_div d 1000 ≤ 0 ↔ d < 500)
  ∧ ∀ q r, d = 1000 * q + r → -500 ≤ r < 500 → JS.round_div d 1000 = q.
Proof.
  unfold JS.round_div. change (1000 `div` 2) with 500. split.
  - split; intros H.
    + destruct (Z.lt_ge_cases d 500) as [|Hge]; [done|].
      assert (1 ≤ (d + 500) `div` 1000)
        by (apply Z.div_le_lower_bound; lia). lia.
    + assert ((d + 500) `div` 1000 < 1)
        by (apply Z.div_lt_upper_bound; lia). lia.
  - intros q r -> Hr. symmetry. apply (Z.div_unique _ _ _ (r + 500)); lia.
Qed.

Lemma tick_running (h w : nat) (now e : Z) (v : View) (tw : TimerWidget) :
  intervals v !! h = Some w → widgets v !! w = Some tw → end_ tw = Some e →
  tick h now v = updateTimer w (seconds tw) e (name tw) now v.
Proof. intros Hh Hw He. unfold tick. by rewrite Hh, Hw, He. Qed.

(** The text of the completion notification of a timer. *)
Definition completion (tw : TimerWidget) : Notification :=
  {| title := "Timer Complete";
     body := (if String.eqb (name tw) "" then "Timer" else name tw)
             +:+ " for " +:+ formatTimeForTimer (seconds tw) +:+ " is done!" |}.

Lemma updateTimer_expired (w : nat) (e now : Z) (v : View) (tw : TimerWidget) :
  widgets v !! w = Some tw → e - now < 500 →
  updateTimer w (seconds tw) e (name tw) now v
  = notify (title (completion tw)) (body (completion tw))
      (set_alarmAudio (Howl_play (alarmAudio (stop w v))) (stop w v)).
Proof.
  intros Hw Hlt. unfold updateTimer.
  apply (proj1 (round_div_1000 (e - now))) in Hlt.
  apply Z.leb_le in Hlt. by rewrite Hlt.
Qed.

Lemma updateTimer_counting (w : nat) (e now : Z) (v : View) (tw : TimerWidget) :
  500 ≤ e - now →
  updateTimer w (seconds tw) e (name tw) now v
  = set_widgets
      (alter (λ tw, match amountEl tw with
                    | Some _ => set_amountEl
                                  (formatTimeForTimer (JS.round_div (e - now) 1000)) tw
                    | None => tw
                    end) w (widgets v)) v.
Proof.
  intros Hge. unfold updateTimer.
  destruct (Z.leb_spec (JS.round_div (e - now) 1000) 0) as [Hle|]; [|done].
  apply (proj1 (round_div_1000 (e - now))) in Hle. lia.
Qed.

Lemma tick_cases (v : View) (h w : nat) (tw : TimerWidget) (e now : Z) :
  intervals v !! h = Some w → widgets v !! w = Some tw →
  end_ tw = Some e → interval tw = Some h →
  let v' := tick h now v in
  (e - now < 500 →
     widgets v' !! w = Some (set_timer_state None None false tw)
     ∧ intervals v' = delete h (intervals v)
     ∧ playing (alarmAudio v') = S (playing (alarmAudio v))
     ∧ notifications v' = notifications v ++ [completion tw])
  ∧ (500 ≤ e - now →
     0 < JS.round_div (e - now) 1000
     ∧ widgets v' !! w
       = Some (match amountEl tw with
               | Some _ => set_amountEl
                             (formatTimeForTimer (JS.round_div (e - now) 1000)) tw
               | None => tw
               end)
     ∧ intervals v' = intervals v
     ∧ alarmAudio v' = alarmAudio v
     ∧ notifications v' = notifications v).
Proof.
  intros Hh Hw He Hi v'. subst v'.
  rewrite (tick_running h w now e v tw Hh Hw He).
  assert (Hlt : (w < length (widgets v))%nat) by by eapply lookup_lt_Some.
  split; intros Hd.
  - rewrite (updateTimer_expired w e now v tw Hw Hd).
    destruct (stop_fields w v tw Hw) as (Hws & Hiv & _ & _ & Haa & Hno & _).
    rewrite Hi in Hiv. simpl. rewrite Hws, Hiv, Haa, Hno.
    split; [by apply list_lookup_insert_eq|]. by repeat split.
  - rewrite (updateTimer_counting w e now v tw Hd). simpl.
    split.
    + destruct (Z.lt_ge_cases 0 (JS.round_div (e - now) 1000)) as [|Hle]; [done|].
      apply (proj1 (round_div_1000 (e - now))) in Hle. lia.
    + rewrite list_lookup_alter_eq, Hw. by repeat split.
Qed.

(** X7. The callback of a running timer ends the countdown exactly when
    less than half a second is left to the deadline, so up to 499 ms
    early.  It then plays the alarm once, notifies once, with the name
    of the timer (or "Timer") and its whole duration in clock format,
    clears the timer's interval and leaves the timer idle.  With half a
    second or more to go it only rewrites the text of the amount, if the
    button has one, with the time left rounded to the second: no sound,
    no notification, no change of deadline or of intervals. *)
Theorem tick_outcome (v : View) (h w : nat) (tw : TimerWidget) (e now : Z) :
  intervals v !! h = Some w → widgets v !! w = Some tw →
  end_ tw = Some e → interval tw = Some h →
  let v' := tick h now v in
  (e - now < 500 →
     widgets v' !! w = Some (set_timer_state None None false tw)
     ∧ intervals v' = delete h (intervals v)
     ∧ playing (alarmAudio v') = S (playing (alarmAudio v))
     ∧ notifications v' = notifications v ++ [completion tw])
  ∧ (500 ≤ e - now →
     0 < JS.round_div (e - now) 1000
     ∧ widgets v' !! w
       = Some (match amountEl tw with
               | Some _ => set_amountEl
                             (formatTimeForTimer (JS.round_div (e - now) 1000)) tw
               | None => tw
               end)
     ∧ intervals v' = intervals v
     ∧ alarmAudio v' = alarmAudio v
     ∧ notifications v' = notifications v).
Proof. exact (tick_cases v h w tw e now). Qed.

Lemma tick_outcome_witness :
  let v := run sampleParse (init allShown None []) eggsStarted in
  notifications (tick 1 180501 v)
  = [{| title := "Timer Complete"; body := "eggs for 3:00 is done!" |}]
  ∧ notifications (tick 1 180500 v) = [].
Proof.
  intros v.
  destruct (tick_outcome v 1%nat 0%nat runningEggs 181000 180501
              eq_refl eq_refl eq_refl eq_refl) as [H1 _].
  destruct (tick_outcome v 1%nat 0%nat runningEggs 181000 180500
              eq_refl eq_refl eq_refl eq_refl) as [_ H2].
  split; [apply H1; lia | apply H2; lia].
Defined.

(** X8. A countdown rings once.  In a state that a view reaches from
    its creation, once the callback of an interval has ended the
    countdown of its timer, the interval is dead: that callback never
    does anything again, whatever the time. *)
Theorem expired_timer_rings_once (parse : string → Recipe.t)
    (st : CooklangSettings) (file : option TFile.t) (sibs : list TAbstractFile)
    (evs : list Event) (h w : nat) (tw : TimerWidget) (e now later : Z) :
  let v := run parse (init st file sibs) evs in
  intervals v !! h = Some w → widgets v !! w = Some tw → end_ tw = Some e →
  e - now < 500 →
  intervals (tick h now v) !! h = None
  ∧ length (notifications (tick h now v)) = S (length (notifications v))
  ∧ tick h later (tick h now v) = tick h now v.
Proof.
  intros v Hh Hw He Hd.
  assert (Hok : view_ok v) by (apply view_ok_run, timers_ok_init).
  destruct Hok as [_ _ Ho _].
  destruct (Ho _ _ Hh) as (tw' & Hw' & Hi). rewrite Hw in Hw'. injection Hw' as <-.
  destruct (tick_cases v h w tw e now Hh Hw He Hi) as [Hexp _].
  destruct (Hexp Hd) as (_ & Hiv & _ & Hno).
  assert (Hdead : intervals (tick h now v) !! h = None)
    by (rewrite Hiv; apply lookup_delete_eq).
  split; [exact Hdead|]. split.
  - rewrite Hno, length_app. simpl. lia.
  - unfold tick at 1. by rewrite Hdead.
Qed.

Lemma expired_timer_rings_once_witness :
  let v := run sampleParse (init allShown None []) eggsStarted in
  tick 1 190000 (tick 1 181000 v) = tick 1 181000 v.
Proof.
  intros v.
  apply (expired_timer_rings_once sampleParse allShown None [] eggsStarted
           1%nat 0%nat runningEggs 181000 181000 190000);
    [reflexivity | reflexivity | reflexivity | lia].
Defined.

(** X9. While a timer runs, the amount on its button shows the time
    left, rounded to the second, in clock format: at the instant of the
    click the whole duration, [k] seconds later (give or take half a
    second) the duration less [k].  Cancelling does not put the label
    back: the button keeps the last time shown, while the next click
    starts again from the whole duration. *)
Theorem countdown_shows_time_left (v : View) (w : nat) (tw : TimerWidget)
    (label : string) (clicked k d later : Z) :
  widgets v !! w = Some tw → end_ tw = None → amountEl tw = Some label →
  0 ≤ k < seconds tw → -500 < d ≤ 500 →
  let h := nextInterval v in
  let v1 := tick h (clicked + 1000 * k + d) (click w clicked v) in
  let v2 := click w later v1 in
  (∃ tw1, widgets v1 !! w = Some tw1
          ∧ amountEl tw1 = Some (formatTimeForTimer (seconds tw - k))
          ∧ end_ tw1 = Some (clicked + seconds tw * 1000)
          ∧ interval tw1 = Some h)
  ∧ notifications v1 = notifications v
  ∧ (∃ tw2, widgets v2 !! w = Some tw2
            ∧ amountEl tw2 = Some (formatTimeForTimer (seconds tw - k))
            ∧ end_ tw2 = None ∧ interval tw2 = None)
  ∧ ∃ tw3, widgets (click w later v2) !! w = Some tw3
           ∧ end_ tw3 = Some (later + seconds tw * 1000).
Proof.
  intros Hw He Ha Hk Hd h v1 v2.
  assert (Hlt : (w < length (widgets v))%nat) by by eapply lookup_lt_Some.
  destruct (click_idle_fields w clicked v tw Hw He) as (Hws & Hiv & _ & _ & _ & Hno).
  fold h in Hws, Hiv.
  set (tw0 := set_timer_state (Some (clicked + seconds tw * 1000)) (Some h) true tw) in *.
  set (v0 := click w clicked v) in *.
  assert (Hw0 : widgets v0 !! w = Some tw0)
    by (rewrite Hws; by apply list_lookup_insert_eq).
  assert (Hh0 : intervals v0 !! h = Some w)
    by (rewrite Hiv; apply lookup_insert_eq).
  set (now := clicked + 1000 * k + d) in *.
  assert (Hleft : clicked + seconds tw * 1000 - now = 1000 * (seconds tw - k) + (- d))
    by (unfold now; lia).
  destruct (tick_cases v0 h w tw0 (clicked + seconds tw * 1000) now
              Hh0 Hw0 eq_refl eq_refl) as [_ Hrun].
  destruct Hrun as (_ & Hw1 & _ & _ & Hno1); [lia|].
  fold v1 in Hw1, Hno1.
  rewrite (proj2 (round_div_1000 _) (seconds tw - k) (- d) Hleft) in Hw1 by lia.
  change (amountEl tw0) with (amountEl tw) in Hw1. rewrite Ha in Hw1.
  set (tw1 := set_amountEl _ tw0) in *.
  split; [by exists tw1|]. split; [by rewrite Hno1, Hno|].
  assert (Hstop : v2 = stop w v1)
    by (apply (click_running w later v1 tw1 Hw1); by eexists).
  destruct (stop_fields w v1 tw1 Hw1) as (Hws2 & _).
  assert (Hw2 : widgets v2 !! w = Some (set_timer_state None None false tw1)).
  { rewrite Hstop, Hws2. apply list_lookup_insert_eq. by eapply lookup_lt_Some. }
  split; [by eexists|].
  destruct (click_idle_fields w later v2 _ Hw2 eq_refl) as (Hws3 & _).
  eexists. rewrite Hws3.
  split; [apply list_lookup_insert_eq; by eapply lookup_lt_Some | reflexivity].
Qed.

Lemma countdown_shows_time_left_witness :
  ∃ tw, widgets (tick 1 61000 (click 0 1000 opened)) !! 0%nat = Some tw
        ∧ amountEl tw = Some "2:00".
Proof.
  destruct (countdown_shows_time_left opened 0%nat
              {| seconds := 180; name := "eggs"; end_ := None; interval := None;
                 running := false; amountEl := Some "3m"; nameEl := Some "eggs" |}
              "3m" 1000 60 0 70000 eq_refl eq_refl eq_refl)
    as ((tw1 & Hw1 & Ha1 & _) & _); [simpl; lia | lia |].
  exists tw1. split; [exact Hw1 | exact Ha1].
Defined.

(** ** Timers side by side, and over time *)

Lemma stop_other (w w' : nat) (v : View) :
  view_ok v → w ≠ w' →
  widgets (stop w v) !! w' = widgets v !! w'
  ∧ ∀ h', intervals v !! h' = Some w' → intervals (stop w v) !! h' = Some w'.
Proof.
  intros [_ Hl _ _] Hne.
  destruct (widgets v !! w) as [tw|] eqn:Hw; [|unfold stop; by rewrite Hw].
  destruct (stop_fields w v tw Hw) as (-> & -> & _).
  split; [by apply list_lookup_insert_ne|].
  intros h' Hh'. destruct (interval tw) as [h|] eqn:Hi; [|done].
  rewrite lookup_delete_ne; [done|]. intros <-.
  pose proof (Hl _ _ _ Hw Hi). congruence.
Qed.

Lemma click_other (w w' : nat) (now : Z) (v : View) :
  view_ok v → w ≠ w' →
  widgets (click w now v) !! w' = widgets v !! w'
  ∧ ∀ h', intervals v !! h' = Some w' → intervals (click w now v) !! h' = Some w'.
Proof.
  intros Hok Hne.
  destruct (widgets v !! w) as [tw|] eqn:Hw; [|unfold click; by rewrite Hw].
  destruct (end_ tw) as [e|] eqn:He.
  - rewrite (click_running w now v tw Hw) by (rewrite He; eauto).
    by apply stop_other.
  - destruct (click_idle_fields w now v tw Hw He) as (-> & -> & _).
    split; [by apply list_lookup_insert_ne|].
    intros h' Hh'. rewrite lookup_insert_ne; [done|]. intros <-.
    destruct Hok as [_ _ _ Hn]. apply Hn in Hh'. lia.
Qed.

Lemma tick_other (h w w' : nat) (now : Z) (v : View) :
  view_ok v → intervals v !! h = Some w → w ≠ w' →
  widgets (tick h now v) !! w' = widgets v !! w'
  ∧ ∀ h', intervals v !! h' = Some w' → intervals (tick h now v) !! h' = Some w'.
Proof.
  intros Hok Hh Hne. unfold tick. rewrite Hh.
  destruct (widgets v !! w) as [tw|] eqn:Hw; [|done].
  destruct (end_ tw) as [e|]; [|done].
  unfold updateTimer. destruct (_ <=? 0).
  - simpl. by apply stop_other.
  - simpl. split; [by apply list_lookup_alter_ne|done].
Qed.

(** X10. Timers are independent.  In a state that a view reaches from
    its creation, a click on the button of one timer, or the callback of
    one timer's interval, changes nothing of any other timer: its
    deadline, its handle, its mark and its text stay, and its interval
    stays live. *)
Theorem timers_are_independent (parse : string → Recipe.t)
    (st : CooklangSettings) (file : option TFile.t) (sibs : list TAbstractFile)
    (evs : list Event) (w w' h : nat) (now : Z) :
  let v := run parse (init st file sibs) evs in
  w ≠ w' →
  (widgets (click w now v) !! w' = widgets v !! w'
   ∧ ∀ h', intervals v !! h' = Some w' → intervals (click w now v) !! h' = Some w')
  ∧ (intervals v !! h = Some w →
     widgets (tick h now v) !! w' = widgets v !! w'
     ∧ ∀ h', intervals v !! h' = Some w' → intervals (tick h now v) !! h' = Some w').
Proof.
  intros v Hne.
  assert (Hok : view_ok v) by (apply view_ok_run, timers_ok_init).
  split; [by apply click_other|]. intros Hh. by apply (tick_other h w w').
Qed.

Lemma timers_are_independent_witness :
  let v := run sampleParse (init allShown None []) eggsStarted in
  widgets (click 1 2000 v) !! 0%nat = Some runningEggs
  ∧ intervals (click 1 2000 v) !! 1%nat = Some 0%nat.
Proof.
  intros v.
  destruct (timers_are_independent sampleParse allShown None [] eggsStarted
              1%nat 0%nat 1%nat 2000 ltac:(discriminate)) as [[Hw Hh] _].
  split; [etrans; [exact Hw | reflexivity] | apply Hh; reflexivity].
Defined.

Lemma step_keeps_timers (parse : string → Recipe.t) (v : View) (e : Event)
    (w : nat) (tw : TimerWidget) :
  widgets v !! w = Some tw →
  ∃ tw', widgets (step parse v e) !! w = Some tw'
         ∧ seconds tw' = seconds tw ∧ name tw' = name tw.
Proof.
  intros Hw.
  assert (Hlt : (w < length (widgets v))%nat) by by eapply lookup_lt_Some.
  assert (Hsame : ∀ v', widgets v' = widgets v →
            ∃ tw', widgets v' !! w = Some tw'
                   ∧ seconds tw' = seconds tw ∧ name tw' = name tw)
    by (intros v' ->; by exists tw).
  assert (Hins : ∀ (ws : list TimerWidget) w0 tw0 tw1,
            widgets v !! w0 = Some tw0 → ws = <[w0:=tw1]> (widgets v) →
            seconds tw1 = seconds tw0 → name tw1 = name tw0 →
            ∃ tw', ws !! w = Some tw'
                   ∧ seconds tw' = seconds tw ∧ name tw' = name tw).
  { intros ws w0 tw0 tw1 Hw0 -> Hs Hn. destruct (decide (w0 = w)) as [->|Hne].
    - exists tw1. rewrite list_lookup_insert_eq by done.
      rewrite Hw in Hw0. injection Hw0 as <-. done.
    - exists tw. by rewrite list_lookup_insert_ne. }
  assert (Hstop : ∀ w0, ∃ tw', widgets (stop w0 v) !! w = Some tw'
                              ∧ seconds tw' = seconds tw ∧ name tw' = name tw).
  { intros w0. destruct (widgets v !! w0) as [tw0|] eqn:Hw0.
    - destruct (stop_fields w0 v tw0 Hw0) as (Hws & _). by eapply Hins.
    - apply Hsame. unfold stop. by rewrite Hw0. }
  assert (Hrender : ∀ o u, widgets u = widgets v →
            ∃ tw', widgets (renderPreview o u) !! w = Some tw'
                   ∧ seconds tw' = seconds tw ∧ name tw' = name tw).
  { intros o u Hu. destruct (renderPreview_widgets o u) as (new & -> & _).
    exists tw. rewrite Hu. by rewrite lookup_app_l. }
  assert (Hswitch : ∀ m, ∃ tw', widgets (switchTo m v) !! w = Some tw'
                                ∧ seconds tw' = seconds tw ∧ name tw' = name tw).
  { intros [|]; [by apply Hsame|].
    destruct (switchTo_preview v) as (_ & _ & -> & _). by apply Hrender. }
  destruct e as [w0 now|h now|text flag| | |arg|mode|d| |f s]; simpl;
    try (by apply Hsame).
  - destruct (widgets v !! w0) as [tw0|] eqn:Hw0;
      [|apply Hsame; unfold click; by rewrite Hw0].
    destruct (end_ tw0) as [e|] eqn:He.
    + rewrite (click_running w0 now v tw0 Hw0) by (rewrite He; eauto).
      apply Hstop.
    + destruct (click_idle_fields w0 now v tw0 Hw0 He) as (Hws & _).
      by eapply Hins.
  - unfold tick. destruct (intervals v !! h) as [w0|]; [|by apply Hsame].
    destruct (widgets v !! w0) as [tw0|] eqn:Hw0; [|by apply Hsame].
    destruct (end_ tw0) as [e|]; [|by apply Hsame].
    unfold updateTimer. destruct (_ <=? 0); simpl; [apply Hstop|].
    destruct (decide (w0 = w)) as [->|Hne].
    + rewrite list_lookup_alter_eq, Hw. simpl. eexists. split; [done|].
      by destruct (amountEl tw).
    + exists tw. by rewrite list_lookup_alter_ne.
  - unfold setViewData. case_decide; [|apply Hsame; by destruct flag].
    apply Hrender. by destruct flag.
  - destruct arg as [|m|[|]]; simpl; try (by apply Hsame); apply Hswitch.
  - destruct mode as [m|]; simpl; [apply Hswitch | by apply Hsame].
Qed.

(** X11. A timer is never removed and never changes its duration or
    its name: whatever happens to the view afterwards (clicks, ticks,
    re-renderings, mode switches, clearing), a timer once made is still
    there under the same index, with the seconds and the name it was
    made with. *)
Theorem timer_duration_is_fixed (parse : string → Recipe.t) (evs : list Event) :
  ∀ (v : View) (w : nat) (tw : TimerWidget),
    widgets v !! w = Some tw →
    ∃ tw', widgets (run parse v evs) !! w = Some tw'
           ∧ seconds tw' = seconds tw ∧ name tw' = name tw.
Proof.
  induction evs as [|e evs IH]; intros v w tw Hw; simpl; [by exists tw|].
  destruct (step_keeps_timers parse v e w tw Hw) as (tw1 & Hw1 & Hs & Hn).
  destruct (IH _ _ _ Hw1) as (tw2 & Hw2 & Hs2 & Hn2).
  exists tw2. split; [done|]. split; congruence.
Qed.

Lemma timer_duration_is_fixed_witness :
  ∃ tw', widgets (run sampleParse opened
                    [EvClick 0 1000; EvSetViewData "" true; EvClear; EvTick 1 181000])
           !! 0%nat = Some tw'
         ∧ seconds tw' = 180 ∧ name tw' = "eggs".
Proof.
  apply (timer_duration_is_fixed sampleParse _ opened 0%nat
           {| seconds := 180; name := "eggs"; end_ := None; interval := None;
              running := false; amountEl := Some "3m"; nameEl := Some "eggs" |}).
  reflexivity.
Defined.

(** ** What timers leave alone, and what leaves timers alone *)

(** The part of the view that is not about timers. *)
Definition sameDocument (v v' : View) : Prop :=
  settings v' = settings v ∧ file v' = file v ∧ siblings v' = siblings v
  ∧ previewEl v' = previewEl v ∧ previewDisplay v' = previewDisplay v
  ∧ sourceDisplay v' = sourceDisplay v ∧ doc v' = doc v ∧ data v' = data v
  ∧ recipe v' = recipe v ∧ changeModeIcon v' = changeModeIcon v
  ∧ currentView v' = currentView v.

Lemma stop_sameDocument w v : sameDocument v (stop w v).
Proof.
  unfold stop. destruct (widgets v !! w) as [tw|]; [|by repeat split].
  destruct (interval tw); by repeat split.
Qed.

Lemma click_sameDocument w now v : sameDocument v (click w now v).
Proof.
  unfold click. destruct (widgets v !! w) as [tw|]; [|by repeat split].
  destruct (end_ tw); [apply stop_sameDocument | by repeat split].
Qed.

Lemma tick_sameDocument h now v : sameDocument v (tick h now v).
Proof.
  unfold tick. destruct (intervals v !! h) as [w|]; [|by repeat split].
  destruct (widgets v !! w) as [tw|]; [|by repeat split].
  destruct (end_ tw) as [e|]; [|by repeat split].
  unfold updateTimer. destruct (_ <=? 0); [|by repeat split].
  exact (stop_sameDocument w v).
Qed.

(** The part of the view that is about timers, when only timers are
    added. *)
Definition sameSchedules (v v' : View) : Prop :=
  intervals v' = intervals v ∧ nextInterval v' = nextInterval v
  ∧ notifications v' = notifications v ∧ timerAudio v' = timerAudio v
  ∧ ∃ new, widgets v' = widgets v ++ new ∧ Forall fresh new.

Lemma sameSchedules_refl v v' :
  intervals v' = intervals v → nextInterval v' = nextInterval v →
  notifications v' = notifications v → timerAudio v' = timerAudio v →
  widgets v' = widgets v → sameSchedules v v'.
Proof.
  intros ? ? ? ? Hw. repeat split; try done.
  exists []. rewrite app_nil_r. split; [done|constructor].
Qed.

Lemma sameSchedules_trans v1 v2 v3 :
  sameSchedules v1 v2 → sameSchedules v2 v3 → sameSchedules v1 v3.
Proof.
  intros (Hi & Hn & Ho & Ha & new & Hw & Hf) (Hi' & Hn' & Ho' & Ha' & new' & Hw' & Hf').
  repeat split; try congruence.
  exists (new ++ new'). split; [|by apply Forall_app].
  by rewrite Hw', Hw, <- (assoc_L (++)).
Qed.

Lemma renderPreview_sameSchedules o u : sameSchedules u (renderPreview o u).
Proof.
  destruct (renderPreview_frame o u) as (_&_&_&_&_&_& Hi & Hn & _ & Ha & Ho).
  destruct (renderPreview_widgets o u) as (new & Hw & Hf).
  repeat split; try done. by exists new.
Qed.

Lemma switchTo_sameSchedules m v : sameSchedules v (switchTo m v).
Proof.
  destruct m; [by apply sameSchedules_refl|].
  unfold switchTo.
  set (u := set_changeModeLabel _ _).
  destruct (renderPreview_sameSchedules (recipe u) u) as (Hi & Hn & Ho & Ha & Hw).
  by repeat split.
Qed.

Lemma step_sameSchedules parse v e :
  isTimerEvent e = false → sameSchedules v (step parse v e).
Proof.
  destruct e as [w0 now|h now|text flag| | |arg|mode|d| |f s]; simpl;
    try discriminate; intros _; try (by apply sameSchedules_refl).
  - unfold setViewData. set (u := set_recipe _ _).
    assert (Hu : sameSchedules v u) by (apply sameSchedules_refl; by destruct flag).
    case_decide; [|done].
    eapply sameSchedules_trans; [exact Hu|apply renderPreview_sameSchedules].
  - destruct arg as [|m|[|]]; simpl;
      try apply switchTo_sameSchedules; by apply sameSchedules_refl.
  - destruct mode; simpl; [apply switchTo_sameSchedules|by apply sameSchedules_refl].
Qed.

(** X12. Only timers touch the schedules.  No call of a method of the
    view ([setViewData], [getViewData], [clear], [switchMode],
    [setState]), no edit, no change of the folder starts or clears an
    interval, plays the tick sound or notifies; a timer made before is
    left as it is, and whatever timers are added are idle. *)
Theorem only_timers_touch_schedules (parse : string → Recipe.t)
    (evs : list Event) (v : View) :
  Forall (λ e, isTimerEvent e = false) evs →
  intervals (run parse v evs) = intervals v
  ∧ liveSchedules (run parse v evs) = liveSchedules v
  ∧ notifications (run parse v evs) = notifications v
  ∧ timerAudio (run parse v evs) = timerAudio v
  ∧ ∃ new, widgets (run parse v evs) = widgets v ++ new ∧ Forall fresh new.
Proof.
  intros Hevs.
  assert (H : sameSchedules v (run parse v evs)).
  { revert v. induction Hevs as [|e evs He _ IH]; intros v; simpl.
    - by apply sameSchedules_refl.
    - eapply sameSchedules_trans; [by apply step_sameSchedules|apply IH]. }
  destruct H as (Hi & _ & Ho & Ha & Hw).
  split; [done|]. split; [unfold liveSchedules; by rewrite Hi|]. by repeat split.
Qed.

Lemma only_timers_touch_schedules_witness :
  let v := run sampleParse (init allShown None []) eggsStarted in
  intervals (run sampleParse v
               [EvClear; EvSwitchMode ArgNone; EvSetViewData "" false;
                EvSwitchMode (ArgMouse false); EvGetViewData])
    !! 1%nat = Some 0%nat.
Proof.
  intros v.
  destruct (only_timers_touch_schedules sampleParse
              [EvClear; EvSwitchMode ArgNone; EvSetViewData "" false;
               EvSwitchMode (ArgMouse false); EvGetViewData] v) as [H _].
  - repeat constructor.
  - rewrite H. reflexivity.
Defined.

(** The panes fit the mode: in preview mode the preview is displayed
    and the editor hidden; in source mode the editor is displayed and
    the preview is hidden, or has never been filled. *)
Definition panes_ok (v : View) : Prop :=
  match currentView v with
  | preview =>
      previewDisplay v = "block" ∧ sourceDisplay v = "none"
      ∧ changeModeIcon v = "pencil"
  | source =>
      sourceDisplay v = "block" ∧ changeModeIcon v = "lines-of-text"
      ∧ (previewDisplay v = "none" ∨ previewEl v = [])
  end.

Lemma panes_ok_sameDocument v v' : sameDocument v v' → panes_ok v → panes_ok v'.
Proof.
  intros (_&_&_& Hel & Hp & Hs & _ & _ & _ & Hi & Hc). unfold panes_ok.
  by rewrite Hc, Hel, Hp, Hs, Hi.
Qed.

Lemma renderPreview_displays o u :
  previewDisplay (renderPreview o u) = previewDisplay u
  ∧ sourceDisplay (renderPreview o u) = sourceDisplay u
  ∧ changeModeIcon (renderPreview o u) = changeModeIcon u
  ∧ currentView (renderPreview o u) = currentView u.
Proof.
  unfold renderPreview. destruct o as [r|]; [|done]. simpl.
  by destruct (renderSteps _ _ _).
Qed.

Lemma panes_ok_switchTo m v : panes_ok (switchTo m v).
Proof.
  destruct m; unfold panes_ok; simpl; [by repeat split; left|].
  set (u := set_changeModeLabel _ _).
  destruct (renderPreview_displays (recipe v) u) as (_ & _ & -> & ->).
  done.
Qed.

Lemma panes_ok_step parse v e : panes_ok v → panes_ok (step parse v e).
Proof.
  intros Hok.
  destruct e as [w0 now|h now|text flag| | |arg|mode|d| |f s]; simpl;
    try done.
  - exact (panes_ok_sameDocument _ _ (click_sameDocument w0 now v) Hok).
  - exact (panes_ok_sameDocument _ _ (tick_sameDocument h now v) Hok).
  - unfold setViewData. set (u := set_recipe _ _).
    assert (Hu : panes_ok u) by by destruct flag.
    case_decide as Hc; [|done].
    destruct (renderPreview_displays (recipe u) u) as (Hp & Hs & Hi & Hcv).
    unfold panes_ok in *. rewrite Hcv, Hp, Hs, Hi. by rewrite Hc in Hu |- *.
  - unfold panes_ok in *. simpl. destruct (currentView v); [|done].
    destruct Hok as (? & ? & _). repeat split; try done. by right.
  - destruct arg as [|m|[|]]; simpl; try apply panes_ok_switchTo; done.
  - destruct mode; simpl; [apply panes_ok_switchTo|done].
Qed.

(** X13. The panes fit the mode, in every state that a view reaches
    from its creation: in preview mode the preview is displayed, the
    editor is hidden and the button shows the pencil; in source mode the
    editor is displayed, the button shows the lines of text, and the
    preview is hidden or still empty. *)
Theorem panes_fit_the_mode (parse : string → Recipe.t) (st : CooklangSettings)
    (file : option TFile.t) (sibs : list TAbstractFile) (evs : list Event) :
  let v := run parse (init st file sibs) evs in
  (currentView v = preview →
     previewDisplay v = "block" ∧ sourceDisplay v = "none"
     ∧ changeModeIcon v = "pencil")
  ∧ (currentView v = source →
       sourceDisplay v = "block" ∧ changeModeIcon v = "lines-of-text"
       ∧ (previewDisplay v = "none" ∨ previewEl v = [])).
Proof.
  intros v.
  assert (Hok : panes_ok v).
  { subst v. generalize (init st file sibs), (ltac:(by repeat split; right) : panes_ok (init st file sibs)).
    induction evs as [|e evs IH]; intros v Hv; simpl; [done|].
    apply IH. by apply panes_ok_step. }
  unfold panes_ok in Hok. destruct (currentView v); split; done.
Qed.

Lemma panes_fit_the_mode_witness :
  previewDisplay opened = "block" ∧ sourceDisplay opened = "none"
  ∧ changeModeIcon opened = "pencil".
Proof.
  destruct (panes_fit_the_mode sampleParse allShown None []
              [EvSetViewData "eggs" true; EvSwitchMode (ArgMode preview)]) as [H _].
  apply H. reflexivity.
Defined.

(** ** Loading and saving *)




(** ** More on the formatters *)

(** X15. The summary format drops the seconds without rounding: from a
    minute on, a duration is shown as the whole minutes below it (90
    seconds is "1m", like 60). *)
Theorem formatTime_drops_seconds (time : Z) :
  60 ≤ time →
  formatTime time false = formatTime (time - time `mod` 60) false
  ∧ formatTime time false = formatTime (60 * (time `div` 60)) false.
Proof.
  intros Ht.
  assert (Heq : time - time `mod` 60 = 60 * (time `div` 60))
    by (pose proof (Z.div_mod time 60); lia).
  rewrite Heq. cut (formatTime time false = formatTime (60 * (time `div` 60)) false);
    [by split|].
  set (t' := 60 * (time `div` 60)).
  assert (Ht' : 60 ≤ t') by (unfold t'; Z.div_mod_to_equations; lia).
  destruct (clock_fields time) as (Hr1 & _); [lia|].
  destruct (clock_fields t') as (Hr1' & _); [lia|].
  unfold formatTime, JS.floor_div. rewrite Hr1, Hr1'.
  assert (H1 : t' `div` 3600 = time `div` 3600)
    by (unfold t'; Z.div_mod_to_equations; lia).
  assert (H2 : (t' `mod` 3600) `div` 60 = (time `mod` 3600) `div` 60)
    by (unfold t'; Z.div_mod_to_equations; lia).
  rewrite H1, H2.
  destruct (Z.ltb_spec 0 (time `div` 3600)) as [|Hh]; [done|].
  assert (Hlt : time < 3600) by (Z.div_mod_to_equations; lia).
  assert (Hm : 0 < (time `mod` 3600) `div` 60)
    by (rewrite Z.mod_small by lia; apply Z.div_str_pos; lia).
  apply Z.ltb_lt in Hm. by rewrite Hm.
Qed.

Lemma formatTime_drops_seconds_witness :
  formatTime 90 false = formatTime 60 false.
Proof.
  destruct (formatTime_drops_seconds 90) as [H _]; [lia|]. exact H.
Defined.

Lemma countdown_long (time : Z) :
  3600 ≤ time →
  formatTimeForTimer time
  = JS.String (time `div` 3600) +:+ ":"
      +:+ twoDigits ((time `mod` 3600) `div` 60) +:+ ":"
      +:+ twoDigits (time `mod` 60).
Proof.
  intros Hh. destruct (clock_fields time) as (Hr1 & Hr2 & Hm & Hs); [lia|].
  unfold formatTimeForTimer, JS.floor_div. rewrite Hr1, Hr2.
  assert (0 < time `div` 3600) as ->%Z.ltb_lt by (apply Z.div_str_pos; lia).
  rewrite !padStart_twoDigits by lia. reflexivity.
Qed.

Lemma countdown_short (time : Z) :
  0 ≤ time < 3600 →
  formatTimeForTimer time
  = JS.String (time `div` 60) +:+ ":" +:+ twoDigits (time `mod` 60).
Proof.
  intros Hh. destruct (clock_fields time) as (Hr1 & Hr2 & Hm & Hs); [lia|].
  unfold formatTimeForTimer, JS.floor_div. rewrite Hr1, Hr2.
  rewrite (Z.div_small time 3600), (Z.mod_small time 3600) by lia.
  change (0 <? 0) with false. cbv iota.
  rewrite padStart_twoDigits by lia. reflexivity.
Qed.

Lemma split_app_sep c a b :
  occurrences c a = O →
  JS.split c (a +:+ String.String c EmptyString +:+ b) = a :: JS.split c b.
Proof. exact (split_app c a b). Qed.

Lemma String_no_colon (n : Z) : 0 ≤ n → occurrences ":" (JS.String n) = O.
Proof.
  intros Hn. rewrite <- (Z2Nat.id n) by done.
  apply allDigits_occurrences; [done|apply pretty_nat_digits].
Qed.

Lemma twoDigits_facts (a b : Z) :
  0 ≤ a < 60 → 0 ≤ b < 60 →
  occurrences ":" (twoDigits a) = O
  ∧ (twoDigits a = twoDigits b → a = b).
Proof.
  intros Ha Hb.
  assert (Hall : forallb (λ x, (occurrences ":" (twoDigits (Z.of_nat x)) =? 0)%nat
                    && forallb (λ y, implb (String.eqb (twoDigits (Z.of_nat x))
                                                       (twoDigits (Z.of_nat y)))
                                           (x =? y)%nat) (seq 0 60))
                   (seq 0 60) = true) by (vm_compute; reflexivity).
  rewrite forallb_forall in Hall.
  assert (Hin : In (Z.to_nat a) (seq 0 60)) by (apply in_seq; lia).
  destruct (andb_prop _ _ (Hall _ Hin)) as [H1 H2].
  rewrite Z2Nat.id in H1, H2 by lia.
  split; [by apply Nat.eqb_eq|].
  intros Heq. rewrite forallb_forall in H2.
  assert (Hinb : In (Z.to_nat b) (seq 0 60)) by (apply in_seq; lia).
  pose proof (H2 _ Hinb) as H3. rewrite Z2Nat.id in H3 by lia.
  rewrite Heq, String.eqb_refl in H3. cbn [implb] in H3.
  apply Nat.eqb_eq in H3. lia.
Qed.

(** X16. The clock format is not ambiguous: two different numbers of
    seconds, none negative, never give the same countdown text. *)
Theorem countdown_text_determines_time (t t' : Z) :
  0 ≤ t → 0 ≤ t' → formatTimeForTimer t = formatTimeForTimer t' → t = t'.
Proof.
  intros Ht Ht' Heq.
  pose proof (Z.div_mod t 3600) as D1. pose proof (Z.div_mod t' 3600) as D1'.
  pose proof (Z.mod_pos_bound t 3600) as B1. pose proof (Z.mod_pos_bound t' 3600) as B1'.
  pose proof (Z.mod_pos_bound t 60) as B2. pose proof (Z.mod_pos_bound t' 60) as B2'.
  assert (Hm : ∀ x, 0 ≤ x → 0 ≤ (x `mod` 3600) `div` 60 < 60).
  { intros x Hx. pose proof (Z.mod_pos_bound x 3600).
    split; [apply Z.div_pos; lia | apply Z.div_lt_upper_bound; lia]. }
  assert (Hsplit3 : ∀ x, 3600 ≤ x →
            JS.split ":" (formatTimeForTimer x)
            = [JS.String (x `div` 3600); twoDigits ((x `mod` 3600) `div` 60);
               twoDigits (x `mod` 60)]).
  { intros x Hx. rewrite countdown_long by done.
    pose proof (Z.mod_pos_bound x 60).
    rewrite split_app_sep by (apply String_no_colon, Z.div_pos; lia). f_equal.
    rewrite split_app_sep by (apply (twoDigits_facts _ 0); [apply Hm|]; lia). f_equal.
    apply split_without, (twoDigits_facts _ 0); lia. }
  assert (Hsplit2 : ∀ x, 0 ≤ x < 3600 →
            JS.split ":" (formatTimeForTimer x)
            = [JS.String (x `div` 60); twoDigits (x `mod` 60)]).
  { intros x Hx. rewrite countdown_short by done.
    pose proof (Z.mod_pos_bound x 60).
    rewrite split_app_sep by (apply String_no_colon, Z.div_pos; lia). f_equal.
    apply split_without, (twoDigits_facts _ 0); lia. }
  apply (f_equal (JS.split ":")) in Heq.
  destruct (Z.lt_ge_cases t 3600), (Z.lt_ge_cases t' 3600).
  - rewrite !Hsplit2 in Heq by lia.
    assert (Hq := f_equal (.!! 0%nat) Heq). assert (Hs := f_equal (.!! 1%nat) Heq).
    cbn [lookup list_lookup] in Hq, Hs.
    apply (inj Some) in Hq, Hs. apply (inj pretty) in Hq.
    apply twoDigits_facts in Hs; [|lia..].
    clear -Hq Hs. Z.div_mod_to_equations. lia.
  - rewrite (Hsplit2 t), (Hsplit3 t') in Heq by lia. discriminate.
  - rewrite (Hsplit3 t), (Hsplit2 t') in Heq by lia. discriminate.
  - rewrite !Hsplit3 in Heq by lia.
    assert (Hq := f_equal (.!! 0%nat) Heq). assert (Hmm := f_equal (.!! 1%nat) Heq).
    assert (Hs := f_equal (.!! 2%nat) Heq).
    cbn [lookup list_lookup] in Hq, Hmm, Hs.
    apply (inj Some) in Hq, Hmm, Hs. apply (inj pretty) in Hq.
    apply twoDigits_facts in Hs; [|lia..].
    apply twoDigits_facts in Hmm; [|by apply Hm..].
    clear -Hq Hmm Hs. Z.div_mod_to_equations. lia.
Qed.

Lemma countdown_text_determines_time_witness : 3725 = 3600 + 125.
Proof.
  apply (countdown_text_determines_time 3725 (3600 + 125)); [lia | lia | reflexivity].
Defined.

(** ** Rendering again *)

Lemma Step_eq (a b : Step.t) :
  Step.text a = Step.text b → Step.line a = Step.line b →
  Step.image a = Step.image b → a = b.
Proof. destruct a, b; simpl; by intros -> -> ->. Qed.

Lemma Recipe_eq (a b : Recipe.t) :
  Recipe.ingredients a = Recipe.ingredients b →
  Recipe.cookware a = Recipe.cookware b →
  Recipe.timers a = Recipe.timers b →
  Recipe.steps a = Recipe.steps b →
  Recipe.image a = Recipe.image b → a = b.
Proof. destruct a, b; simpl; by intros -> -> -> -> ->. Qed.

(** Binding the images of the same folder a second time changes
    nothing. *)
Lemma bindImages_idempotent file sibs r :
  bindImages file sibs (bindImages file sibs r) = bindImages file sibs r.
Proof.
  unfold bindImages. destruct file as [me|]; [|done].
  set (fs := otherFiles (Some me) sibs).
  set (r1 := foldl (bindFile me) r fs).
  destruct (foldl_bindFile_frame me fs r1) as (Hi & Hc & Ht & Htext & Hline).
  assert (Hlen : length (Recipe.steps r1) = length (Recipe.steps r))
    by apply foldl_bindFile_length.
  apply Recipe_eq; try done.
  - apply list_eq. intros i.
    pose proof (foldl_bindFile_step_image me fs r1 i) as H2.
    pose proof (foldl_bindFile_step_image me fs r i) as H1.
    fold r1 in H1. rewrite Hlen in H2.
    apply (f_equal (.!! i)) in Htext, Hline.
    rewrite !list_lookup_fmap in Htext, Hline.
    assert (Himg : Recipe.steps (foldl (bindFile me) r1 fs) !! i ≫= Step.image
                   = Recipe.steps r1 !! i ≫= Step.image).
    { rewrite H2, H1.
      destruct (last (filter _ fs)) as [f|]; [|done].
      assert (is_Some (Recipe.steps r1 !! i) ↔ is_Some (Recipe.steps r !! i)) as Hs
        by (rewrite !lookup_lt_is_Some; lia).
      destruct (Recipe.steps r1 !! i), (Recipe.steps r !! i); simpl; try done.
      destruct Hs as [H3 H4].
      (destruct H3; [by eauto|done]) || (destruct H4; [by eauto|done]). }
    destruct (Recipe.steps (foldl (bindFile me) r1 fs) !! i) as [a|],
      (Recipe.steps r1 !! i) as [b|]; simpl in *; try done.
    f_equal. apply Step_eq; congruence.
  - rewrite foldl_bindFile_image.
    destruct (last (filter _ fs)) as [f|] eqn:E; [|done].
    unfold r1. by rewrite foldl_bindFile_image, E.
Qed.

Lemma renderPart_shift part ws ws' k :
  length ws' = (k + length ws)%nat →
  (renderPart part ws').1 = shiftTimers k (renderPart part ws).1
  ∧ length (renderPart part ws').2 = (k + length (renderPart part ws).2)%nat.
Proof.
  intros Hl. destruct part as [s|ing|c|t|]; simpl; try done.
  - split; [|done].
    destruct (Ingredient.amount ing), (Ingredient.units ing); reflexivity.
  - split; [|done]. destruct (Cookware.amount c); reflexivity.
  - rewrite Hl, !length_app. simpl. split; [done|lia].
Qed.

Lemma renderParts_shift parts :
  ∀ ws ws' k,
    length ws' = (k + length ws)%nat →
    (renderParts parts ws').1 = map (shiftTimers k) (renderParts parts ws).1
    ∧ length (renderParts parts ws').2 = (k + length (renderParts parts ws).2)%nat.
Proof.
  induction parts as [|part parts IH]; intros ws ws' k Hl; simpl; [done|].
  destruct (renderPart_shift part ws ws' k Hl) as [H1 L1].
  destruct (renderPart part ws) as [n ws1], (renderPart part ws') as [n' ws1'].
  simpl in H1, L1.
  destruct (IH ws1 ws1' k L1) as [H2 L2].
  destruct (renderParts parts ws1) as [ns ws2],
    (renderParts parts ws1') as [ns' ws2'].
  simpl in *. by rewrite H1, H2.
Qed.

Lemma renderSteps_shift showI steps :
  ∀ ws ws' k,
    length ws' = (k + length ws)%nat →
    (renderSteps showI steps ws').1
    = map (shiftTimers k) (renderSteps showI steps ws).1
    ∧ length (renderSteps showI steps ws').2
      = (k + length (renderSteps showI steps ws).2)%nat.
Proof.
  induction steps as [|step steps IH]; intros ws ws' k Hl; simpl; [done|].
  unfold renderStep.
  destruct (renderParts_shift (stepText step) ws ws' k Hl) as [H1 L1].
  destruct (renderParts (stepText step) ws) as [n ws1],
    (renderParts (stepText step) ws') as [n' ws1'].
  simpl in H1, L1.
  destruct (IH ws1 ws1' k L1) as [H2 L2].
  destruct (renderSteps showI steps ws1) as [ns ws2],
    (renderSteps showI steps ws1') as [ns' ws2'].
  simpl in *. rewrite H1, H2. split; [|done]. f_equal.
  rewrite map_app. simpl.
  by destruct (Step.image step), showI.
Qed.

Lemma map_shift_static {A} (f : A → Node) (k : nat) (l : list A) :
  (∀ x, shiftTimers k (f x) = f x) →
  map (shiftTimers k) (f <$> l) = f <$> l.
Proof.
  intros Hf. induction l as [|x l IH]; [done|].
  rewrite fmap_cons. cbn [map]. by rewrite Hf, IH.
Qed.

(** Rendering the same recipe over more timers gives the same preview,
    its buttons bound to timers that many places further. *)
Lemma renderPreview_shift (r : Recipe.t) (v v' : View) (k : nat) :
  settings v' = settings v → file v' = file v → siblings v' = siblings v →
  length (widgets v') = (k + length (widgets v))%nat →
  previewEl (renderPreview (Some r) v')
  = map (shiftTimers k) (previewEl (renderPreview (Some r) v)).
Proof.
  intros Hs Hf Hsib Hl.
  destruct (renderPreview_sections v r) as (items & ws & Hsteps & _ & _ & ->).
  destruct (renderPreview_sections v' r) as (items' & ws' & Hsteps' & _ & _ & ->).
  assert (Hb : boundRecipe v' r = boundRecipe v r)
    by (unfold boundRecipe; by rewrite Hs, Hf, Hsib).
  rewrite Hb, Hs in *.
  destruct (renderSteps_shift (showImages (settings v))
              (Recipe.steps (boundRecipe v r)) (widgets v) (widgets v') k Hl)
    as [Hitems _].
  rewrite Hsteps, Hsteps' in Hitems. simpl in Hitems. subst items'.
  rewrite !map_app.
  assert (Hi : ∀ x, shiftTimers k (renderIngredient x) = renderIngredient x).
  { intros x. unfold renderIngredient, fragment. simpl.
    by destruct (JS.String <$> Ingredient.amount x), (Ingredient.units x). }
  assert (Hc : ∀ x, shiftTimers k (renderCookware x) = renderCookware x).
  { intros x. unfold renderCookware, fragment. simpl.
    by destruct (JS.String <$> Cookware.amount x). }
  assert (Ht : ∀ x, shiftTimers k (renderTimer x) = renderTimer x).
  { intros x. unfold renderTimer, fragment. simpl.
    by destruct (JS.String <$> Timer.amount x), (Timer.units x). }
  f_equal; [by destruct (showImages (settings v)), (Recipe.image (boundRecipe v r))|].
  f_equal; [destruct (showIngredientList (settings v)); [|done];
            simpl; by rewrite (map_shift_static renderIngredient)|].
  f_equal; [destruct (showCookwareList (settings v)); [|done];
            simpl; by rewrite (map_shift_static renderCookware)|].
  f_equal; [destruct (showTimersList (settings v)); [|done];
            simpl; by rewrite (map_shift_static renderTimer)|].
  f_equal. by destruct (showTotalTime (settings v) && _).
Qed.

Lemma preview_timer_count (v : View) (r : Recipe.t) :
  length (widgets (renderPreview (Some r) v))
  = (length (widgets v) + inlineTimers (Recipe.steps r))%nat.
Proof.
  destruct (renderPreview_sections v r) as (items & ws & Hsteps & _ & -> & _).
  destruct (renderSteps_refs (showImages (settings v))
              (Recipe.steps (boundRecipe v r)) (widgets v)) as [_ Hlen].
  rewrite Hsteps in Hlen. simpl in Hlen. rewrite Hlen. f_equal.
  apply inlineTimers_ext. unfold boundRecipe.
  destruct (showImages (settings v)); [|done]. apply binding_changes_stepText.
Qed.

(** X17. Going to source mode and back to preview, with the folder as
    it was, shows the same preview as before, built anew: the same
    sections, lists, images and step texts, each button bound to a new
    timer (the one as many places further as the recipe has inline
    timers), and the recipe with the same images. *)
Theorem preview_round_trip (v : View) :
  let v1 := switchTo preview v in
  let v2 := switchTo preview (switchTo source v1) in
  let k := (length (widgets v1) - length (widgets v))%nat in
  previewEl v2 = map (shiftTimers k) (previewEl v1)
  ∧ recipe v2 = recipe v1
  ∧ length (widgets v2) = (k + length (widgets v1))%nat.
Proof.
  intros v1 v2 k.
  set (enter := λ x, set_changeModeLabel "Edit (Ctrl+Click to edit in new pane)"
                       (set_changeModeIcon "pencil" (set_currentView preview x))).
  destruct (switchTo_preview v) as (Hel & Hrec & Hws & _).
  destruct (switchTo_preview (switchTo source v1)) as (Hel2 & Hrec2 & Hws2 & _).
  change (set_changeModeLabel _ (set_changeModeIcon _ (set_currentView _ v)))
    with (enter v) in *.
  change (set_changeModeLabel _ (set_changeModeIcon _
            (set_currentView _ (switchTo source v1))))
    with (enter (switchTo source v1)) in *.
  fold v1 in Hel, Hrec, Hws. fold v2 in Hel2, Hrec2, Hws2.
  set (u := enter v) in *. set (u1 := enter (switchTo source v1)) in *.
  assert (Hr1 : recipe (switchTo source v1) = recipe v1) by reflexivity.
  assert (Hw1 : widgets u1 = widgets v1) by reflexivity.
  assert (Hset : settings u1 = settings u ∧ file u1 = file u ∧ siblings u1 = siblings u).
  { destruct (renderPreview_frame (recipe v) u) as (H1 & H2 & H3 & _).
    by repeat split. }
  destruct Hset as (Hs & Hf & Hsib).
  rewrite Hel2, Hrec2, Hws2, Hr1, Hel, Hrec. subst k. rewrite Hws.
  destruct (recipe v) as [r|] eqn:Hr.
  - destruct (renderPreview_sections u r) as (items & ws & _ & Hbound & Hwsu & _).
    rewrite Hbound.
    assert (Hwu : widgets u = widgets v) by reflexivity.
    pose proof (preview_timer_count u r) as Hcount.
    pose proof (preview_timer_count u1 (boundRecipe u r)) as Hcount1.
    assert (Hk : inlineTimers (Recipe.steps (boundRecipe u r))
                 = inlineTimers (Recipe.steps r)).
    { apply inlineTimers_ext. unfold boundRecipe.
      destruct (showImages (settings u)); [|done]. apply binding_changes_stepText. }
    assert (Hidem : boundRecipe u1 (boundRecipe u r) = boundRecipe u r).
    { unfold boundRecipe. rewrite Hs, Hf, Hsib.
      destruct (showImages (settings u)); [|done]. apply bindImages_idempotent. }
    assert (Hsame : boundRecipe u (boundRecipe u r) = boundRecipe u r).
    { unfold boundRecipe.
      destruct (showImages (settings u)); [|done]. apply bindImages_idempotent. }
    rewrite Hwu in Hcount. rewrite Hw1, Hws, Hk in Hcount1.
    split; [|split].
    + rewrite (renderPreview_shift (boundRecipe u r) u u1
                 (inlineTimers (Recipe.steps r)) Hs Hf Hsib)
        by (rewrite Hw1, Hws, Hcount, Hwu; lia).
      rewrite Hcount.
      replace (length (widgets v) + inlineTimers (Recipe.steps r) - length (widgets v))%nat
        with (inlineTimers (Recipe.steps r)) by lia.
      f_equal.
      destruct (renderPreview_sections u (boundRecipe u r)) as (i2 & w2 & S2 & _ & _ & E2).
      destruct (renderPreview_sections u r) as (i1 & w1 & S1 & _ & _ & E1).
      rewrite E2, E1, Hsame. rewrite Hsame in S2. rewrite S1 in S2.
      injection S2 as <- <-.
      assert (Htt : Recipe.calculateTotalTime (boundRecipe u r) = Recipe.calculateTotalTime r)
        by apply boundRecipe_totalTime.
      by rewrite Htt.
    + destruct (renderPreview_sections u1 (boundRecipe u r)) as (_ & _ & _ & -> & _).
      by rewrite Hidem.
    + rewrite Hcount1, Hcount. lia.
  - change (recipe (renderPreview None u)) with (recipe v). rewrite Hr.
    split; [reflexivity|].
    split; [change (recipe (renderPreview None u1)) with (recipe v1);
            rewrite Hrec; exact Hr|].
    change (widgets (renderPreview None u1)) with (widgets v1).
    rewrite Hws. change (widgets (renderPreview None u)) with (widgets v). lia.
Qed.
